(** * ClientGeoHub: the search controller, the record feed and the forms

  A shallow embedding of the event handlers of [src/App.jsx],
  [src/components/login.jsx] and the stand-alone search screen, together
  with the properties their specification states about them.

  React state is a record, one field per [useState] cell; a handler is a
  function from the state (and the event's payload) to the next state and
  the effects it issues.  An [async] handler is split at its [await]: the
  part that runs synchronously, and the continuation that runs when the
  awaited promise settles.  Strings are sequences of code units below 256
  (the Latin-1 range), numbers are binary64 floats, [null]/[undefined] is
  [None]. *)

From Stdlib Require Import Floats Ascii.
From stdpp Require Import gmap strings list sorting.

Set Warnings "-inexact-float".
Open Scope string_scope.

(** ** The string primitives of the host language that the handlers call *)

Module JS.

(** Truthiness of a string: only the empty string is falsy. *)
Definition truthy (s : string) : bool :=
  match s with
  | EmptyString => false
  | String _ _ => true
  end.

(** [s.substring(n)]: [s] without its first [n] code units. *)
Fixpoint substringFrom (n : nat) (s : string) : string :=
  match n, s with
  | O, _ => s
  | S _, EmptyString => EmptyString
  | S n', String _ s' => substringFrom n' s'
  end.

(** [s.startsWith(p)] *)
Fixpoint startsWith (s p : string) {struct p} : bool :=
  match p, s with
  | EmptyString, _ => true
  | String _ _, EmptyString => false
  | String b p', String a s' => bool_decide (a = b) && startsWith s' p'
  end.

(** [s.endsWith(suf)]: the search string is compared with the last
    [suf.length] code units of [s]; it fails when [suf] is longer. *)
Definition endsWith (s suf : string) : bool :=
  if decide (String.length suf ≤ String.length s)%nat
  then bool_decide
         (substringFrom (String.length s - String.length suf) s = suf)
  else false.

(** [s.includes(t)]: [t] occurs in [s] at some position. *)
Fixpoint includes (s t : string) : bool :=
  startsWith s t ||
  match s with
  | EmptyString => false
  | String _ s' => includes s' t
  end.

(** The capital letters among the code units below 256: [A]..[Z], and
    the accented capitals U+00C0..U+00DE but for the multiplication sign
    U+00D7. *)
Definition capital (n : nat) : Prop :=
  (65 ≤ n ≤ 90)%nat ∨ ((192 ≤ n ≤ 222)%nat ∧ n ≠ 215%nat).

Definition isUpper (c : ascii) : bool :=
  bool_decide (capital (nat_of_ascii c)).

(** Lower-casing of one code unit: a capital letter moves 32 up to its
    small letter, every other code unit stays. *)
Definition lowerChar (c : ascii) : ascii :=
  if isUpper c then ascii_of_nat (nat_of_ascii c + 32) else c.

(** [s.toLowerCase()] *)
Fixpoint toLowerCase (s : string) : string :=
  match s with
  | EmptyString => EmptyString
  | String c s' => String (lowerChar c) (toLowerCase s')
  end.

(** [s.substring(0, n)]: the first [n] code units of [s]. *)
Fixpoint substringTo (n : nat) (s : string) : string :=
  match n, s with
  | O, _ => EmptyString
  | S _, EmptyString => EmptyString
  | S n', String c s' => String c (substringTo n' s')
  end.

(** The white space [trim] removes, among the code units below 256: tab,
    line feed, vertical tab, form feed, carriage return, space and
    no-break space. *)
Definition isSpace (c : ascii) : bool :=
  bool_decide (nat_of_ascii c ∈ [9; 10; 11; 12; 13; 32; 160]%nat).

Fixpoint trimStart (s : string) : string :=
  match s with
  | EmptyString => EmptyString
  | String c s' => if isSpace c then trimStart s' else s
  end.

Fixpoint trimEnd (s : string) : string :=
  match s with
  | EmptyString => EmptyString
  | String c s' =>
      match trimEnd s' with
      | EmptyString => if isSpace c then EmptyString else String c EmptyString
      | String d t => String c (String d t)
      end
  end.

(** [s.trim()] *)
Definition trim (s : string) : string := trimEnd (trimStart s).

(** [l.findIndex(p)]: the index of the first element that passes, [-1]
    when none does. *)
Fixpoint findIndexFrom {A : Type} (i : Z) (p : A → bool) (l : list A) : Z :=
  match l with
  | [] => (-1)%Z
  | x :: l' => if p x then i else findIndexFrom (i + 1)%Z p l'
  end.

Definition findIndex {A : Type} (p : A → bool) (l : list A) : Z :=
  findIndexFrom 0%Z p l.

End JS.

(** ** The sign-up form ([components/login.jsx]) *)

Module Login.

Inductive Mode := login | register.

Record State := {
  mode : Mode;
  email : string;
  password : string;
  confirmPassword : string;
  fullName : string;
  loading : bool
}.

(** What a handler asks of the outside world: a dialog, or a request to
    the identity provider. *)
Inductive Effect :=
| Alert (message : string)
| SignInWithEmailAndPassword (email password : string)
| CreateUserWithEmailAndPassword (email password : string).

Definition setLoading (b : bool) (st : State) : State :=
  {| mode := mode st; email := email st; password := password st;
     confirmPassword := confirmPassword st; fullName := fullName st;
     loading := b |}.

Definition isNetworkCall (e : Effect) : bool :=
  match e with
  | Alert _ => false
  | SignInWithEmailAndPassword _ _ => true
  | CreateUserWithEmailAndPassword _ _ => true
  end.

(** [handleRegister], up to its first [await]: the three checks, each
    with its own dialog and an early return, then the loading flag and
    the account-creation request. *)
Definition handleRegister (st : State) : State * list Effect :=
  if negb (JS.endsWith (email st) "@seewise.ai") then
    (st, [Alert "Only @seewise.ai emails are allowed to register."])
  else if bool_decide (password st ≠ confirmPassword st) then
    (st, [Alert "Passwords do not match"])
  else if bool_decide (String.length (password st) < 6)%nat then
    (st, [Alert "Password must be at least 6 characters long"])
  else
    (setLoading true st,
     [CreateUserWithEmailAndPassword (email st) (password st)]).

(** [handleLogin], up to its first [await]. *)
Definition handleLogin (st : State) : State * list Effect :=
  (setLoading true st,
   [SignInWithEmailAndPassword (email st) (password st)]).

(** [handleTabChange]: switching tabs empties the four text fields. *)
Definition handleTabChange (newValue : Mode) (st : State) : State :=
  {| mode := newValue; email := ""; password := ""; confirmPassword := "";
     fullName := ""; loading := loading st |}.

(** *** The rest of [handleRegister]: what follows each [await] *)

(** What the continuations ask of the outside world. *)
Inductive FollowUp :=
| ShowAlert (message : string)
| UpdateProfile (displayName : string)
| OnLogin.

(** After the account was created: a name that is not blank is sent, trimmed,
    as the display name, and the handler waits again; a blank name goes
    straight to the success dialog and [onLogin], and the [finally] lowers
    the loading flag. *)
Definition handleRegister_created (st : State) : State * list FollowUp :=
  if JS.truthy (JS.trim (fullName st))
  then (st, [UpdateProfile (JS.trim (fullName st))])
  else (setLoading false st,
        [ShowAlert "Account created successfully!"; OnLogin]).

(** After the display name was stored. *)
Definition handleRegister_named (st : State) : State * list FollowUp :=
  (setLoading false st,
   [ShowAlert "Account created successfully!"; OnLogin]).

(** After either request failed: the [catch] shows the error's message, the
    [finally] lowers the loading flag. *)
Definition handleRegister_failed (message : string) (st : State)
  : State * list FollowUp :=
  (setLoading false st, [ShowAlert message]).

(** Every code unit of the text is white space. *)
Fixpoint blank (s : string) : bool :=
  match s with
  | EmptyString => true
  | String c s' => JS.isSpace c && blank s'
  end.

(** The first and the last code unit of a text. *)
Definition firstChar (s : string) : option ascii :=
  match s with
  | EmptyString => None
  | String c _ => Some c
  end.

Fixpoint lastChar (s : string) : option ascii :=
  match s with
  | EmptyString => None
  | String c EmptyString => Some c
  | String _ s' => lastChar s'
  end.

End Login.

(** ** The location search box ([EnhancedLocationSearch] in [App.jsx];
    the stand-alone screen [EnhancedMapWithSearch] has the same
    [searchLocations], [handleInputChange], [handleClear] and
    [toggleExpand], and starts with the other provider) *)

Module Search.

Inductive Provider := nominatim | photon.

#[global] Instance Provider_eq_dec : EqDecision Provider.
Proof. solve_decision. Defined.

(** A suggestion as both providers' responses are normalised. *)
Record Suggestion := {
  id : float;
  display_name : string;
  lat : float;
  lon : float;
  type : option string
}.

(** The [useState] cells of the component. *)
Record State := {
  query : string;
  suggestions : list Suggestion;
  selectedPosition : option (float * float);
  selectedName : string;
  isExpanded : bool;
  isLoading : bool;
  error : string;
  apiProvider : Provider;
  showSettings : bool
}.

Definition setQuery (v : string) (st : State) : State :=
  {| query := v; suggestions := suggestions st;
     selectedPosition := selectedPosition st; selectedName := selectedName st;
     isExpanded := isExpanded st; isLoading := isLoading st;
     error := error st; apiProvider := apiProvider st;
     showSettings := showSettings st |}.

Definition setSuggestions (v : list Suggestion) (st : State) : State :=
  {| query := query st; suggestions := v;
     selectedPosition := selectedPosition st; selectedName := selectedName st;
     isExpanded := isExpanded st; isLoading := isLoading st;
     error := error st; apiProvider := apiProvider st;
     showSettings := showSettings st |}.

Definition setSelectedPosition (v : option (float * float)) (st : State)
  : State :=
  {| query := query st; suggestions := suggestions st;
     selectedPosition := v; selectedName := selectedName st;
     isExpanded := isExpanded st; isLoading := isLoading st;
     error := error st; apiProvider := apiProvider st;
     showSettings := showSettings st |}.

Definition setSelectedName (v : string) (st : State) : State :=
  {| query := query st; suggestions := suggestions st;
     selectedPosition := selectedPosition st; selectedName := v;
     isExpanded := isExpanded st; isLoading := isLoading st;
     error := error st; apiProvider := apiProvider st;
     showSettings := showSettings st |}.

Definition setIsExpanded (v : bool) (st : State) : State :=
  {| query := query st; suggestions := suggestions st;
     selectedPosition := selectedPosition st; selectedName := selectedName st;
     isExpanded := v; isLoading := isLoading st;
     error := error st; apiProvider := apiProvider st;
     showSettings := showSettings st |}.

Definition setIsLoading (v : bool) (st : State) : State :=
  {| query := query st; suggestions := suggestions st;
     selectedPosition := selectedPosition st; selectedName := selectedName st;
     isExpanded := isExpanded st; isLoading := v;
     error := error st; apiProvider := apiProvider st;
     showSettings := showSettings st |}.

Definition setError (v : string) (st : State) : State :=
  {| query := query st; suggestions := suggestions st;
     selectedPosition := selectedPosition st; selectedName := selectedName st;
     isExpanded := isExpanded st; isLoading := isLoading st;
     error := v; apiProvider := apiProvider st;
     showSettings := showSettings st |}.

Definition setApiProvider (v : Provider) (st : State) : State :=
  {| query := query st; suggestions := suggestions st;
     selectedPosition := selectedPosition st; selectedName := selectedName st;
     isExpanded := isExpanded st; isLoading := isLoading st;
     error := error st; apiProvider := v;
     showSettings := showSettings st |}.

Definition setShowSettings (v : bool) (st : State) : State :=
  {| query := query st; suggestions := suggestions st;
     selectedPosition := selectedPosition st; selectedName := selectedName st;
     isExpanded := isExpanded st; isLoading := isLoading st;
     error := error st; apiProvider := apiProvider st;
     showSettings := v |}.

(** The initial cells; [App.jsx] starts with [photon], the stand-alone
    screen with [nominatim]. *)
Definition initialState (p : Provider) : State :=
  {| query := ""; suggestions := []; selectedPosition := None;
     selectedName := ""; isExpanded := false; isLoading := false;
     error := ""; apiProvider := p; showSettings := false |}.

(** *** The network side of a lookup *)

(** The second argument of [fetch]: request headers and the abort signal
    (named by the controller it belongs to). *)
Record FetchInit := {
  headers : list (string * string);
  signal : option nat
}.

(** What each provider's [search] hands to [fetch] besides the URL: the
    first a [User-Agent] header, the second nothing; neither a signal. *)
Definition fetchInit (p : Provider) : FetchInit :=
  match p with
  | nominatim =>
      {| headers := [("User-Agent", "MapSearchApp/1.0")]; signal := None |}
  | photon => {| headers := []; signal := None |}
  end.

(** A lookup on its way: which provider, which text, which [fetch] options. *)
Record Request := {
  req_provider : Provider;
  req_query : string;
  req_init : FetchInit
}.

(** How [await apis[apiProvider].search(searchQuery)] ends: with the
    normalised suggestions, or with a thrown error of some name. *)
Inductive Outcome :=
| Results (results : list Suggestion)
| Throws (name : string).

Definition isAbortError (o : Outcome) : bool :=
  match o with
  | Results _ => false
  | Throws name => bool_decide (name = "AbortError")
  end.

(** The platform's contract for [fetch]: a request whose signal belongs to
    an aborted controller rejects with [AbortError]; any other request
    ends some other way. *)
Definition permitted (aborted : gset nat) (r : Request) (o : Outcome)
  : bool :=
  match signal (req_init r) with
  | Some c =>
      if bool_decide (c ∈ aborted) then isAbortError o
      else negb (isAbortError o)
  | None => negb (isAbortError o)
  end.

(** The map object behind [mapRef]: what [setView] writes. *)
Record MapView := {
  center : float * float;
  zoom : float
}.

(** The component with what lives outside its cells: the two refs, the
    debounced copy of the query, every controller that was aborted, and
    the lookups in flight (numbered in the order they were issued). *)
Record Component := {
  ui : State;
  debouncedQuery : string;
  abortControllerRef : option nat;
  nextController : nat;
  aborted : gset nat;
  pending : gmap nat Request;
  nextRequest : nat;
  mapRef : option MapView
}.

Definition withUi (f : State → State) (w : Component) : Component :=
  {| ui := f (ui w); debouncedQuery := debouncedQuery w;
     abortControllerRef := abortControllerRef w;
     nextController := nextController w; aborted := aborted w;
     pending := pending w; nextRequest := nextRequest w;
     mapRef := mapRef w |}.

Definition initial (p : Provider) (map : option MapView) : Component :=
  {| ui := initialState p; debouncedQuery := "";
     abortControllerRef := None; nextController := 0; aborted := ∅;
     pending := ∅; nextRequest := 0; mapRef := map |}.

(** [searchLocations], up to its [await]: a short text empties the
    suggestions and returns; otherwise the controller in the ref (if any)
    is aborted, a new one takes its place, the loading flag goes up, the
    error goes away, and the provider's [search] sends its request. *)
Definition searchLocations (searchQuery : string) (w : Component)
  : Component :=
  if negb (JS.truthy searchQuery)
     || bool_decide (String.length searchQuery < 3)%nat
  then withUi (setSuggestions []) w
  else
    {| ui := setError "" (setIsLoading true (ui w));
       debouncedQuery := debouncedQuery w;
       abortControllerRef := Some (nextController w);
       nextController := S (nextController w);
       aborted := match abortControllerRef w with
                  | Some c => {[c]} ∪ aborted w
                  | None => aborted w
                  end;
       pending := <[nextRequest w :=
                     {| req_provider := apiProvider (ui w);
                        req_query := searchQuery;
                        req_init := fetchInit (apiProvider (ui w)) |}]>
                  (pending w);
       nextRequest := S (nextRequest w);
       mapRef := mapRef w |}.

(** [searchLocations], from its [await] on: the [try] body on a result,
    the [catch] on an error, then the [finally]. *)
Definition searchLocations_resume (o : Outcome) (st : State) : State :=
  setIsLoading false
    match o with
    | Results results =>
        if bool_decide (0 < length results)%nat
        then setSuggestions results st
        else setError "No results found" (setSuggestions [] st)
    | Throws name =>
        if bool_decide (name ≠ "AbortError")
        then setSuggestions [] (setError "Search failed. Please try again." st)
        else st
    end.

(** A lookup in flight settles and its continuation runs. *)
Definition settle (rid : nat) (o : Outcome) (w : Component)
  : option Component :=
  match pending w !! rid with
  | Some r =>
      if permitted (aborted w) r o
      then Some {| ui := searchLocations_resume o (ui w);
                   debouncedQuery := debouncedQuery w;
                   abortControllerRef := abortControllerRef w;
                   nextController := nextController w;
                   aborted := aborted w;
                   pending := delete rid (pending w);
                   nextRequest := nextRequest w;
                   mapRef := mapRef w |}
      else None
  | None => None
  end.

Definition handleInputChange (value : string) (st : State) : State :=
  let st := setError "" (setQuery value st) in
  if bool_decide (3 ≤ String.length value)%nat
  then setIsExpanded true st
  else st.

(** [handleSelect] of [App.jsx]: the six cells, then the map, when the
    ref holds one, is moved to the position at zoom 14. *)
Definition handleSelect (place : Suggestion) (w : Component) : Component :=
  let position := (lat place, lon place) in
  {| ui := setError ""
             (setIsExpanded false
               (setSuggestions []
                 (setQuery (display_name place)
                   (setSelectedName (display_name place)
                     (setSelectedPosition (Some position) (ui w))))));
     debouncedQuery := debouncedQuery w;
     abortControllerRef := abortControllerRef w;
     nextController := nextController w; aborted := aborted w;
     pending := pending w; nextRequest := nextRequest w;
     mapRef := match mapRef w with
               | Some _ => Some {| center := position; zoom := 14 |}
               | None => None
               end |}.

Definition handleClear (st : State) : State :=
  setError ""
    (setIsExpanded false
      (setSelectedName ""
        (setSelectedPosition None
          (setSuggestions []
            (setQuery "" st))))).

Definition toggleExpand (st : State) : State :=
  setIsExpanded (negb (isExpanded st)) st.

(** The debounce timer runs out: the debounced copy catches up with the
    query and, when that changes it, the effect calls [searchLocations]. *)
Definition debounceElapsed (w : Component) : Component :=
  if bool_decide (debouncedQuery w = query (ui w)) then w
  else
    searchLocations (query (ui w))
      {| ui := ui w; debouncedQuery := query (ui w);
         abortControllerRef := abortControllerRef w;
         nextController := nextController w; aborted := aborted w;
         pending := pending w; nextRequest := nextRequest w;
         mapRef := mapRef w |}.

(** The provider menu: a new provider gives a new [searchLocations], and
    the effect calls it on the debounced query. *)
Definition changeProvider (p : Provider) (w : Component) : Component :=
  if bool_decide (apiProvider (ui w) = p) then w
  else searchLocations (debouncedQuery w) (withUi (setApiProvider p) w).

(** What can happen to the component. *)
Inductive Event :=
| InputChange (value : string)
| DebounceElapsed
| Settle (rid : nat) (o : Outcome)
| Select (place : Suggestion)
| Clear
| ToggleExpand
| ChangeProvider (p : Provider)
| ToggleSettings.

Definition step (e : Event) (w : Component) : option Component :=
  match e with
  | InputChange value => Some (withUi (handleInputChange value) w)
  | DebounceElapsed => Some (debounceElapsed w)
  | Settle rid o => settle rid o w
  | Select place => Some (handleSelect place w)
  | Clear => Some (withUi handleClear w)
  | ToggleExpand => Some (withUi toggleExpand w)
  | ChangeProvider p => Some (changeProvider p w)
  | ToggleSettings =>
      Some (withUi (λ st, setShowSettings (negb (showSettings st)) st) w)
  end.

Fixpoint run (es : list Event) (w : Component) : option Component :=
  match es with
  | [] => Some w
  | e :: es' =>
      match step e w with
      | Some w' => run es' w'
      | None => None
      end
  end.

(** Every lookup in flight was sent without a signal. *)
Definition unsignalled (w : Component) : Prop :=
  ∀ rid r, pending w !! rid = Some r → signal (req_init r) = None.

(** Two suggestions to run the component on. *)
Definition paris : Suggestion :=
  {| id := 7444; display_name := "Paris, France";
     lat := 48.8566; lon := 2.3522; type := Some "city" |}.

Definition parma : Suggestion :=
  {| id := 43007; display_name := "Parma, Italy";
     lat := 44.8015; lon := 10.328; type := Some "city" |}.

(** The map shows this place: the ref holds a map and its centre is the
    place's coordinate. *)
Definition recentred (place : Suggestion) (w : Component) : Prop :=
  ∃ m, mapRef w = Some m ∧ center m = (lat place, lon place).

(** What selecting a suggestion is specified to do. *)
Definition select_spec (place : Suggestion) (w : Component) : Prop :=
  let w' := handleSelect place w in
  selectedPosition (ui w') = Some (lat place, lon place)
  ∧ selectedName (ui w') = display_name place
  ∧ suggestions (ui w') = []
  ∧ isExpanded (ui w') = false
  ∧ error (ui w') = ""
  ∧ recentred place w'.

(** *** What the component draws from its cells *)

(** The results panel is open: [isExpanded && (suggestions.length > 0 ||
    error)]. *)
Definition resultsPanelOpen (st : State) : bool :=
  isExpanded st
  && (bool_decide (0 < length (suggestions st))%nat || JS.truthy (error st)).

(** The label of the chip of the current selection: names longer than 40
    code units are cut to 40 and get three dots. *)
Definition chipLabel (st : State) : string :=
  if bool_decide (40 < String.length (selectedName st))%nat
  then JS.substringTo 40 (selectedName st) +:+ "..."
  else selectedName st.

(** *** How controllers and lookups are numbered *)

(** The controller in the ref is the last one made; the aborted
    controllers are exactly the ones before it; lookups and controllers
    are made together; lookups in flight have numbers already given out. *)
Definition numbered (w : Component) : Prop :=
  nextRequest w = nextController w
  ∧ (∀ rid r, pending w !! rid = Some r → (rid < nextRequest w)%nat)
  ∧ match abortControllerRef w with
    | Some c => nextController w = S c ∧ ∀ c', c' ∈ aborted w ↔ (c' < c)%nat
    | None => nextController w = 0%nat ∧ aborted w = ∅
    end.

Definition isInputChange (e : Event) : bool :=
  match e with
  | InputChange _ => true
  | _ => false
  end.

End Search.

(** ** The document store, as the dashboard uses it: one collection,
    [clients], queried live with an equality filter and an ordering, and
    written by [addDoc], [updateDoc] and [deleteDoc] *)

Module Firestore.

(** The fields of a client document: the seven that the form writes.  The
    store is taken to hold documents of this shape only. *)
Record ClientData := {
  site_name : string;
  description : string;
  salesperson : string;
  stage : string;
  lat : float;
  lng : float;
  timestamp : string
}.

(** The string-valued fields a query can name. *)
Inductive Field :=
| F_site_name | F_description | F_salesperson | F_stage | F_timestamp.

Definition get (f : Field) (d : ClientData) : string :=
  match f with
  | F_site_name => site_name d
  | F_description => description d
  | F_salesperson => salesperson d
  | F_stage => stage d
  | F_timestamp => timestamp d
  end.

Inductive Direction := asc | desc.

(** [where(f, '==', v)] and [orderBy(f, dir)]. *)
Inductive QueryConstraint :=
| where_eq (f : Field) (value : string)
| orderBy (f : Field) (dir : Direction).

(** A document with its identifier. *)
Abbreviation Doc := (string * ClientData)%type.

(** A document passes a query when it passes every filter of it. *)
Fixpoint matches (q : list QueryConstraint) (d : ClientData) : bool :=
  match q with
  | [] => true
  | where_eq f value :: q' => bool_decide (get f d = value) && matches q' d
  | orderBy _ _ :: q' => matches q' d
  end.

(** The order a query asks for: its orderings, the first one first; strings
    compare code unit by code unit. *)
Fixpoint precedes (q : list QueryConstraint) (a b : ClientData) : Prop :=
  match q with
  | [] => True
  | where_eq _ _ :: q' => precedes q' a b
  | orderBy f dir :: q' =>
      if decide (get f a = get f b) then precedes q' a b
      else match dir with
           | asc => String.le (get f a) (get f b)
           | desc => String.le (get f b) (get f a)
           end
  end.

(** The direction of the last ordering of a query, ascending when it has
    none. *)
Fixpoint lastDirection (d : Direction) (q : list QueryConstraint)
  : Direction :=
  match q with
  | [] => d
  | where_eq _ _ :: q' => lastDirection d q'
  | orderBy _ dir :: q' => lastDirection dir q'
  end.

(** Documents by identifier, in a direction. *)
Definition byId (d : Direction) (a b : string) : Prop :=
  match d with
  | asc => String.le a b
  | desc => String.le b a
  end.

(** The order of the delivered documents: the order the query asks for;
    documents that agree on all its orderings come by identifier, in the
    direction of the last ordering. *)
Definition docs_order (q : list QueryConstraint) : relation Doc :=
  λ a b, precedes q a.2 b.2
         ∧ (precedes q b.2 a.2 → byId (lastDirection asc q) a.1 b.1).

#[global] Instance precedes_dec (q : list QueryConstraint) :
  RelDecision (precedes q).
Proof.
  intros a b. induction q as [|[f v|f dir] q IH]; simpl.
  - left. exact I.
  - exact IH.
  - destruct (decide (get f a = get f b)); [exact IH|].
    destruct dir; apply _.
Defined.

#[global] Instance byId_dec (d : Direction) : RelDecision (byId d).
Proof. intros a b. destruct d; apply _. Defined.

#[global] Instance docs_order_dec (q : list QueryConstraint) :
  RelDecision (docs_order q).
Proof. intros a b. unfold docs_order. apply _. Defined.

(** The documents a live query delivers on a state of the collection. *)
Definition runQuery (q : list QueryConstraint)
    (coll : gmap string ClientData) : list Doc :=
  merge_sort (docs_order q)
    (filter (λ d : Doc, matches q d.2 = true) (map_to_list coll)).

(** [addDoc]: the document is stored under an identifier the store picks,
    one that no document of the collection has. *)
Definition addDoc (newId : string) (data : ClientData)
    (coll : gmap string ClientData) : option (gmap string ClientData) :=
  match coll !! newId with
  | None => Some (<[newId := data]> coll)
  | Some _ => None
  end.

(** [updateDoc] with all seven fields: the document's fields are replaced;
    it fails when there is no document of that identifier. *)
Definition updateDoc (docId : string) (data : ClientData)
    (coll : gmap string ClientData) : option (gmap string ClientData) :=
  match coll !! docId with
  | Some _ => Some (<[docId := data]> coll)
  | None => None
  end.

Definition deleteDoc (docId : string) (coll : gmap string ClientData)
  : gmap string ClientData :=
  delete docId coll.

End Firestore.

(** ** The dashboard ([SimpleMapWithSearch] in [App.jsx]) *)

Module Dashboard.

Import Firestore.

(** The signed-in user, as far as the dashboard reads it. *)
Record User := { email : string }.

(** A row of the local list: a document's fields and, once it comes from
    the store, its identifier (the sample rows have none). *)
Record Marker := {
  id : option string;
  data : ClientData
}.

(** The four text fields of the form. *)
Record FormData := {
  form_site_name : string;
  form_description : string;
  form_salesperson : string;
  form_stage : string
}.

Definition DEFAULT_STAGE : string := "Pipeline".

Definition STAGES : list string :=
  ["Pipeline"; "In Proposal"; "POC Stage"; "Current Client"].

Definition emptyForm (owner : string) : FormData :=
  {| form_site_name := ""; form_description := "";
     form_salesperson := owner; form_stage := DEFAULT_STAGE |}.

Record State := {
  markers : list Marker;
  showForm : bool;
  formLatLng : option (float * float);
  formData : FormData;
  search : string;
  editMode : bool;
  editingId : option string
}.

(** The six sample rows the list starts with; [clock i] is the [i]-th
    reading of the clock while they are built. *)
Definition sampleMarkers (clock : nat → string) : list Marker :=
  [ {| id := None;
       data := {| site_name := "Acme Corp"; description := "Ohio";
                  salesperson := "John"; stage := "Pipeline";
                  lat := 41.5; lng := -82.7; timestamp := clock 0 |} |};
    {| id := None;
       data := {| site_name := "Globex Inc"; description := "West Virginia";
                  salesperson := "Jane"; stage := "In Proposal";
                  lat := 39.3; lng := -80.0; timestamp := clock 1 |} |};
    {| id := None;
       data := {| site_name := "Stark Industries"; description := "New York";
                  salesperson := "Tony"; stage := "POC Stage";
                  lat := 43.0; lng := -76.0; timestamp := clock 2 |} |};
    {| id := None;
       data := {| site_name := "Wayne Enterprises";
                  description := "Philadelphia";
                  salesperson := "Bruce"; stage := "Current Client";
                  lat := 39.95; lng := -75.16; timestamp := clock 3 |} |};
    {| id := None;
       data := {| site_name := "Tech Solutions"; description := "California";
                  salesperson := "Alice"; stage := "Pipeline";
                  lat := 37.7749; lng := -122.4194; timestamp := clock 4 |} |};
    {| id := None;
       data := {| site_name := "Global Systems"; description := "Texas";
                  salesperson := "Bob"; stage := "Current Client";
                  lat := 32.7767; lng := -96.7970; timestamp := clock 5 |} |} ].

Definition initialState (clock : nat → string) : State :=
  {| markers := sampleMarkers clock; showForm := false; formLatLng := None;
     formData := emptyForm ""; search := ""; editMode := false;
     editingId := None |}.

Definition isAdmin (user : User) : bool :=
  bool_decide (email user = "admin@seewise.ai").

(** The query of the subscription: the user's own documents unless the
    user is the administrator, newest timestamp first. *)
Definition clientsQuery (user : User) : list QueryConstraint :=
  (if isAdmin user then [] else [where_eq F_salesperson (email user)])
  ++ [orderBy F_timestamp desc].

(** The listener: each delivered document becomes a row with its
    identifier, and the rows replace the local list. *)
Definition snapshotData (docs : list Doc) : list Marker :=
  (λ d : Doc, {| id := Some d.1; data := d.2 |}) <$> docs.

Definition onSnapshot (docs : list Doc) (st : State) : State :=
  {| markers := snapshotData docs; showForm := showForm st;
     formLatLng := formLatLng st; formData := formData st;
     search := search st; editMode := editMode st;
     editingId := editingId st |}.

(** The rows the sidebar shows. *)
Definition filteredMarkers (markers : list Marker) (search : string)
  : list Marker :=
  filter
    (λ m : Marker,
       JS.includes (JS.toLowerCase (site_name (data m)))
                   (JS.toLowerCase search)
       || JS.includes (JS.toLowerCase (stage (data m)))
                      (JS.toLowerCase search) = true)
    markers.

Definition handleMapClick (latlng : float * float) (user : User)
    (st : State) : State :=
  {| markers := markers st; showForm := true; formLatLng := Some latlng;
     formData := emptyForm (email user); search := search st;
     editMode := editMode st; editingId := editingId st |}.

(** [handleFormChange]: the field named by the input takes the value. *)
Definition handleFormChange (name value : string) (st : State) : State :=
  let fd := formData st in
  let fd' :=
    if bool_decide (name = "site_name") then
      {| form_site_name := value; form_description := form_description fd;
         form_salesperson := form_salesperson fd;
         form_stage := form_stage fd |}
    else if bool_decide (name = "description") then
      {| form_site_name := form_site_name fd; form_description := value;
         form_salesperson := form_salesperson fd;
         form_stage := form_stage fd |}
    else if bool_decide (name = "salesperson") then
      {| form_site_name := form_site_name fd;
         form_description := form_description fd;
         form_salesperson := value; form_stage := form_stage fd |}
    else if bool_decide (name = "stage") then
      {| form_site_name := form_site_name fd;
         form_description := form_description fd;
         form_salesperson := form_salesperson fd; form_stage := value |}
    else fd in
  {| markers := markers st; showForm := showForm st;
     formLatLng := formLatLng st; formData := fd'; search := search st;
     editMode := editMode st; editingId := editingId st |}.

Definition handleEdit (marker : Marker) (st : State) : State :=
  {| markers := markers st; showForm := true;
     formLatLng := Some (lat (data marker), lng (data marker));
     formData := {| form_site_name := site_name (data marker);
                    form_description := description (data marker);
                    form_salesperson := salesperson (data marker);
                    form_stage := stage (data marker) |};
     search := search st; editMode := true; editingId := id marker |}.

(** A write the form sends to the store. *)
Inductive Write :=
| AddDoc (newMarker : ClientData)
| UpdateDoc (docId : string) (newMarker : ClientData).

Definition payload (w : Write) : ClientData :=
  match w with
  | AddDoc d => d
  | UpdateDoc _ d => d
  end.

(** [handleFormSubmit], up to its [await]; [now] is the clock reading of
    [new Date().toISOString()].  Without a coordinate, building the
    document throws and nothing is sent.  The write is an update when the
    edit flag is up and the edited identifier is truthy, a creation
    otherwise. *)
Definition handleFormSubmit (now : string) (st : State) : option Write :=
  match formLatLng st with
  | None => None
  | Some (la, ln) =>
      let newMarker :=
        {| site_name := form_site_name (formData st);
           description := form_description (formData st);
           salesperson := form_salesperson (formData st);
           stage := form_stage (formData st);
           lat := la; lng := ln; timestamp := now |} in
      match editingId st with
      | Some docId =>
          if editMode st && JS.truthy docId
          then Some (UpdateDoc docId newMarker)
          else Some (AddDoc newMarker)
      | None => Some (AddDoc newMarker)
      end
  end.

(** [handleFormSubmit] after a write that went through: the form closes
    and empties.  (After one that failed, nothing changes.) *)
Definition handleFormSubmit_saved (st : State) : State :=
  {| markers := markers st; showForm := false; formLatLng := None;
     formData := emptyForm ""; search := search st; editMode := false;
     editingId := None |}.

(** The store carries out a write; [newId] is the identifier it would
    give a new document. *)
Definition perform (newId : string) (w : Write)
    (coll : gmap string ClientData) : option (gmap string ClientData) :=
  match w with
  | AddDoc d => addDoc newId d coll
  | UpdateDoc docId d => updateDoc docId d coll
  end.

(** What can happen to the dashboard. *)
Inductive Event :=
| Snapshot (coll : gmap string ClientData)
| MapClick (latlng : float * float)
| FormChange (name value : string)
| AddClick
| CloseForm
| Edit (marker : Marker)
| SearchChange (value : string)
| Saved.

Definition isSnapshot (e : Event) : bool :=
  match e with
  | Snapshot _ => true
  | _ => false
  end.

Definition step (user : User) (e : Event) (st : State) : State :=
  match e with
  | Snapshot coll => onSnapshot (runQuery (clientsQuery user) coll) st
  | MapClick latlng => handleMapClick latlng user st
  | FormChange name value => handleFormChange name value st
  | AddClick =>
      {| markers := markers st; showForm := true;
         formLatLng := formLatLng st; formData := formData st;
         search := search st; editMode := editMode st;
         editingId := editingId st |}
  | CloseForm =>
      {| markers := markers st; showForm := false;
         formLatLng := formLatLng st; formData := formData st;
         search := search st; editMode := editMode st;
         editingId := editingId st |}
  | Edit marker => handleEdit marker st
  | SearchChange value =>
      {| markers := markers st; showForm := showForm st;
         formLatLng := formLatLng st; formData := formData st;
         search := value; editMode := editMode st;
         editingId := editingId st |}
  | Saved => handleFormSubmit_saved st
  end.

Definition run (user : User) (es : list Event) (st : State) : State :=
  foldl (λ st e, step user e st) st es.

(** Newest first. *)
Definition newest_first (ms : list Marker) : Prop :=
  StronglySorted
    (λ a b, String.le (timestamp (data b)) (timestamp (data a))) ms.

(** What the local list is specified to look like, at all times. *)
Definition visible_spec (user : User) (st : State) : Prop :=
  (isAdmin user = false →
   ∀ m, m ∈ markers st → salesperson (data m) = email user)
  ∧ newest_first (markers st).

(** What a creation is specified to lead to: the snapshot of the
    collection after the write has a row with the submitted fields, the
    identifier the store gave and the timestamp. *)
Definition create_spec (user : User) (st : State) (now newId : string)
    (coll : gmap string ClientData) : Prop :=
  ∀ d coll',
    handleFormSubmit now st = Some (AddDoc d) →
    perform newId (AddDoc d) coll = Some coll' →
    ∃ m, m ∈ snapshotData (runQuery (clientsQuery user) coll')
         ∧ id m = Some newId
         ∧ site_name (data m) = form_site_name (formData st)
         ∧ description (data m) = form_description (formData st)
         ∧ salesperson (data m) = form_salesperson (formData st)
         ∧ stage (data m) = form_stage (formData st)
         ∧ Some (lat (data m), lng (data m)) = formLatLng st
         ∧ timestamp (data m) = now.

(** A user, and forms to run the dashboard on: Bob clicks the map and
    fills the form in, under another salesperson's email or under his
    own; or he edits a stored record. *)
Definition bob : User := {| email := "bob@seewise.ai" |}.

Definition noon : nat → string := λ _, "2025-06-01T12:00:00.000Z".

Definition draftForAlice : State :=
  handleFormChange "salesperson" "alice@seewise.ai"
    (handleFormChange "site_name" "Initech"
      (handleMapClick (30.27, -97.74)%float bob (initialState noon))).

Definition draftOwn : State :=
  handleFormChange "stage" "POC Stage"
    (handleFormChange "site_name" "Initech"
      (handleMapClick (30.27, -97.74)%float bob (initialState noon))).

Definition initech : ClientData :=
  {| site_name := "Initech"; description := "Austin";
     salesperson := "bob@seewise.ai"; stage := "Pipeline";
     lat := 30.27; lng := -97.74;
     timestamp := "2025-03-01T08:00:00.000Z" |}.

Definition hooli : ClientData :=
  {| site_name := "Hooli"; description := "Palo Alto";
     salesperson := "bob@seewise.ai"; stage := "In Proposal";
     lat := 37.44; lng := -122.14;
     timestamp := "2025-04-01T08:00:00.000Z" |}.

Definition twoClients : gmap string ClientData :=
  <["c1" := initech]> (<["c2" := hooli]> ∅).

Definition editInitech : State :=
  handleFormChange "stage" "Current Client"
    (handleEdit {| id := Some "c1"; data := initech |}
      (onSnapshot (runQuery (clientsQuery bob) twoClients)
        (initialState noon))).

(** *** The remaining handlers of the dashboard *)

(** The test of [handleSidebarSelect]: same latitude, same longitude (as
    numbers compare) and same name. *)
Definition sameRow (marker m : Marker) : bool :=
  PrimFloat.eqb (lat (data m)) (lat (data marker))
  && PrimFloat.eqb (lng (data m)) (lng (data marker))
  && bool_decide (site_name (data m) = site_name (data marker)).

(** [handleSidebarSelect]: the index it stores in [selectedMarkerIdx] and
    opens the popup of. *)
Definition handleSidebarSelect (markers : list Marker) (marker : Marker)
  : Z :=
  JS.findIndex (sameRow marker) markers.

(** [handleDelete]: the document it asks the store to delete.  Without
    the user's confirmation nothing is asked; without an identifier the
    document reference cannot be built, which the [catch] logs. *)
Definition handleDelete (confirmed : bool) (marker : Marker)
  : option string :=
  if confirmed then
    match id marker with
    | Some docId => if JS.truthy docId then Some docId else None
    | None => None
    end
  else None.

Definition isAddClick (e : Event) : bool :=
  match e with
  | AddClick => true
  | _ => false
  end.

(** The event leaves the edit flag and the edited identifier alone. *)
Definition keepsEditTarget (e : Event) : bool :=
  match e with
  | Edit _ | Saved => false
  | _ => true
  end.

(** The event leaves the coordinate, the salesperson of the form and the
    edit target alone. *)
Definition keepsDraft (e : Event) : bool :=
  match e with
  | Snapshot _ | SearchChange _ | CloseForm | AddClick => true
  | FormChange name _ => bool_decide (name ≠ "salesperson")
  | MapClick _ | Edit _ | Saved => false
  end.

End Dashboard.

(** ** The shell ([App] in [App.jsx]): which screen is shown *)

Module AppShell.

Import Dashboard.

Record State := {
  user : option User;
  loading : bool
}.

Definition initialState : State := {| user := None; loading := true |}.

(** The identity provider reports the session ([firebaseUser] is [None]
    when signed out), or the login page reports a sign-in and the shell
    reads [auth.currentUser]. *)
Inductive Event :=
| AuthStateChanged (firebaseUser : option User)
| LoggedIn (currentUser : option User).

Definition step (e : Event) (st : State) : State :=
  match e with
  | AuthStateChanged firebaseUser => {| user := firebaseUser; loading := false |}
  | LoggedIn currentUser => {| user := currentUser; loading := loading st |}
  end.

Definition run (es : list Event) (st : State) : State :=
  foldl (λ st e, step e st) st es.

Inductive Screen :=
| MapLoading
| SimpleMapWithSearch (u : User)
| LoginPage.

Definition render (st : State) : Screen :=
  if loading st then MapLoading
  else match user st with
       | Some u => SimpleMapWithSearch u
       | None => LoginPage
       end.

Definition carried (e : Event) : option User :=
  match e with
  | AuthStateChanged u => u
  | LoggedIn u => u
  end.

Definition isAuthStateChanged (e : Event) : bool :=
  match e with
  | AuthStateChanged _ => true
  | LoggedIn _ => false
  end.

End AppShell.

(** ** Text beyond the Latin-1 range

    The strings of this development hold code units below 256.  This
    module holds text as the host language does, as UTF-16 code units, and
    its lower-casing and substring test on a wider repertoire: the Latin-1
    range and the Greek letters U+0391..U+03A9 and U+03B1..U+03C9, where
    lower-casing looks at the neighbours of a capital sigma.  Code units
    outside this repertoire are outside of what is modelled. *)

Module Unicode.

(** A string of the development read as text. *)
Fixpoint ofString (s : string) : list N :=
  match s with
  | EmptyString => []
  | String c s' => N_of_ascii c :: ofString s'
  end.

Definition inRange (lo hi u : N) : bool := ((lo <=? u) && (u <=? hi))%N.

(** The cased letters of the repertoire: Latin letters, the ordinal
    indicators and the micro sign, the accented Latin-1 letters, the Greek
    letters. *)
Definition cased (u : N) : bool :=
  inRange 0x41 0x5A u || inRange 0x61 0x7A u
  || (u =? 0xAA)%N || (u =? 0xB5)%N || (u =? 0xBA)%N
  || inRange 0xC0 0xD6 u || inRange 0xD8 0xF6 u || inRange 0xF8 0xFF u
  || inRange 0x391 0x3A1 u || inRange 0x3A3 0x3A9 u
  || inRange 0x3B1 0x3C9 u.

(** The case-ignorable characters of the repertoire: apostrophe, full
    stop, colon, circumflex, grave, diaeresis, soft hyphen, macron, acute,
    middle dot, cedilla. *)
Definition caseIgnorable (u : N) : bool :=
  bool_decide
    (u ∈ [0x27; 0x2E; 0x3A; 0x5E; 0x60; 0xA8; 0xAD; 0xAF; 0xB4; 0xB7;
          0xB8]%N).

(** The first code unit that is not case-ignorable. *)
Fixpoint pastIgnorable (l : list N) : option N :=
  match l with
  | [] => None
  | u :: l' => if caseIgnorable u then pastIgnorable l' else Some u
  end.

Definition casedNext (l : list N) : bool :=
  match pastIgnorable l with
  | Some u => cased u
  | None => false
  end.

(** A capital sigma is final when a cased letter comes before it, case-
    ignorable characters apart, and none comes after it; [before] is the
    text before it, nearest code unit first. *)
Definition finalSigma (before after : list N) : bool :=
  casedNext before && negb (casedNext after).

(** Lower-casing of one code unit: capital sigma becomes the final or the
    plain small sigma, any other capital its small letter 32 further. *)
Definition lowerUnit (final : bool) (u : N) : N :=
  if (u =? 0x3A3)%N then (if final then 0x3C2 else 0x3C3)%N
  else if inRange 0x41 0x5A u || inRange 0xC0 0xD6 u || inRange 0xD8 0xDE u
          || inRange 0x391 0x3A1 u || inRange 0x3A4 0x3A9 u
       then (u + 32)%N
       else u.

Fixpoint lowerFrom (before s : list N) : list N :=
  match s with
  | [] => []
  | u :: rest =>
      lowerUnit (finalSigma before rest) u :: lowerFrom (u :: before) rest
  end.

(** [s.toLowerCase()] *)
Definition toLowerCase (s : list N) : list N := lowerFrom [] s.

(** [s.startsWith(p)] and [s.includes(t)] *)
Fixpoint startsWith (s p : list N) {struct p} : bool :=
  match p, s with
  | [], _ => true
  | _ :: _, [] => false
  | b :: p', a :: s' => (a =? b)%N && startsWith s' p'
  end.

Fixpoint includes (s t : list N) : bool :=
  startsWith s t ||
  match s with
  | [] => false
  | _ :: s' => includes s' t
  end.

(** The test of the sidebar filter on one row: [m.site_name.toLowerCase()
    .includes(search.toLowerCase()) || m.stage.toLowerCase()
    .includes(search.toLowerCase())]. *)
Definition rowShown (site_name stage search : list N) : bool :=
  includes (toLowerCase site_name) (toLowerCase search)
  || includes (toLowerCase stage) (toLowerCase search).





(** A record named [ΑΣ] and the search text [Σ]. *)
Definition alphaSigma : list N := [0x391; 0x3A3]%N.
Definition sigma : list N := [0x3A3]%N.

End Unicode.

(** ** The sidebar filter as the specification words it *)

Module SidebarSpec.

Import Firestore Dashboard.

(** Two code units are the same character up to case: they are equal, or
    one is a capital letter and the other the same letter in small, which
    in this range is 32 code units further. *)
Definition same_letter (a b : ascii) : Prop :=
  a = b
  ∨ (JS.capital (nat_of_ascii a)
     ∧ nat_of_ascii b = (nat_of_ascii a + 32)%nat)
  ∨ (JS.capital (nat_of_ascii b)
     ∧ nat_of_ascii a = (nat_of_ascii b + 32)%nat).

(** Two texts are equal up to case: same length, same letters. *)
Inductive eq_ignoring_case : string → string → Prop :=
| eic_empty : eq_ignoring_case "" ""
| eic_String (a b : ascii) (s t : string) :
    same_letter a b → eq_ignoring_case s t →
    eq_ignoring_case (String a s) (String b t).



End SidebarSpec.

(** ** Facts about the string primitives *)

Section JSFacts.

Lemma append_cons (c : ascii) (s t : string) :
  String c s +:+ t = String c (s +:+ t).
Proof. reflexivity. Qed.

Lemma substringFrom_app (pre s : string) :
  JS.substringFrom (String.length pre) (pre +:+ s) = s.
Proof. induction pre as [|c pre IH]; [by destruct s|exact IH]. Qed.

Lemma substringFrom_split (n : nat) (s : string) :
  ∃ pre, s = pre +:+ JS.substringFrom n s.
Proof.
  revert s; induction n as [|n IH]; intros s.
  - by exists "".
  - destruct s as [|c s]; [by exists ""|].
    destruct (IH s) as [pre Hpre]. exists (String c pre).
    rewrite append_cons. simpl. f_equal. exact Hpre.
Qed.

Lemma string_length_app (s t : string) :
  String.length (s +:+ t) = String.length s + String.length t.
Proof.
  induction s as [|c s IH]; [done|].
  rewrite append_cons. simpl. by rewrite IH.
Qed.

(** [endsWith] decides "is a suffix of". *)
Lemma endsWith_spec (s suf : string) :
  JS.endsWith s suf = true ↔ ∃ pre, s = pre +:+ suf.
Proof.
  unfold JS.endsWith. split.
  - case_decide; [|done]. intros Heq%bool_decide_eq_true.
    destruct (substringFrom_split (String.length s - String.length suf) s)
      as [pre Hpre].
    exists pre. by rewrite Heq in Hpre.
  - intros [pre ->]. rewrite string_length_app.
    rewrite decide_True by lia. apply bool_decide_eq_true.
    replace (String.length pre + String.length suf - String.length suf)
      with (String.length pre) by lia.
    apply substringFrom_app.
Qed.

Lemma startsWith_spec (s p : string) :
  JS.startsWith s p = true ↔ ∃ post, s = p +:+ post.
Proof.
  revert s. induction p as [|b p IH]; intros s; simpl.
  - split; [by exists s|done].
  - destruct s as [|a s].
    + split; [done|]. by intros [post [=]].
    + rewrite andb_true_iff, bool_decide_eq_true, IH. split.
      * intros [-> [post ->]]. by exists post.
      * intros [post Heq]. rewrite append_cons in Heq.
        injection Heq as -> ->. eauto.
Qed.

(** [includes] decides "occurs somewhere in". *)
Lemma includes_spec (s t : string) :
  JS.includes s t = true ↔ ∃ pre post, s = pre +:+ t +:+ post.
Proof.
  induction s as [|c s IH]; simpl; rewrite orb_true_iff, startsWith_spec.
  - split.
    + intros [[post Hpost]|]; [|done]. by exists "", post.
    + intros ([|a pre] & post & Heq); [|by rewrite append_cons in Heq].
      left. by exists post.
  - rewrite IH. split.
    + intros [[post Hpost]|(pre & post & ->)].
      * by exists "", post.
      * by exists (String c pre), post.
    + intros ([|a pre] & post & Heq).
      * left. by exists post.
      * right. rewrite append_cons in Heq. injection Heq as -> ->. eauto.
Qed.

Lemma toLowerCase_app (s t : string) :
  JS.toLowerCase (s +:+ t) = JS.toLowerCase s +:+ JS.toLowerCase t.
Proof.
  induction s as [|c s IH]; [done|].
  rewrite append_cons. simpl. by rewrite IH.
Qed.


Lemma nat_of_ascii_inj (a b : ascii) :
  nat_of_ascii a = nat_of_ascii b → a = b.
Proof.
  intros H. rewrite <- (ascii_nat_embedding a), <- (ascii_nat_embedding b).
  by rewrite H.
Qed.

Lemma nat_of_lowerChar (c : ascii) :
  nat_of_ascii (JS.lowerChar c)
  = if JS.isUpper c then (nat_of_ascii c + 32)%nat else nat_of_ascii c.
Proof.
  unfold JS.lowerChar, JS.isUpper. case_bool_decide as Hup; [|done].
  apply nat_ascii_embedding. unfold JS.capital in Hup. lia.
Qed.

(** Lower-casing identifies exactly the code units that are the same
    letter up to case. *)
Lemma lowerChar_eq_iff (a b : ascii) :
  JS.lowerChar a = JS.lowerChar b ↔ SidebarSpec.same_letter a b.
Proof.
  unfold SidebarSpec.same_letter. split.
  - intros H. apply (f_equal nat_of_ascii) in H.
    rewrite !nat_of_lowerChar in H. unfold JS.isUpper in H.
    repeat case_bool_decide.
    + left. apply nat_of_ascii_inj. lia.
    + right. left. split; [done|lia].
    + right. right. split; [done|lia].
    + left. by apply nat_of_ascii_inj.
  - intros [->|[[Ha Hb]|[Hb Ha]]]; [done| |];
      apply nat_of_ascii_inj; rewrite !nat_of_lowerChar; unfold JS.isUpper;
      repeat case_bool_decide; unfold JS.capital in *; lia.
Qed.

Lemma toLowerCase_eq_iff (s t : string) :
  JS.toLowerCase s = JS.toLowerCase t ↔ SidebarSpec.eq_ignoring_case s t.
Proof.
  split.
  - revert t. induction s as [|a s IH]; intros [|b t]; simpl; try done.
    + constructor.
    + intros [= Hc Hs]. constructor; [by apply lowerChar_eq_iff|by apply IH].
  - induction 1 as [|a b s t Hab _ IH]; [done|]. simpl.
    f_equal; [by apply lowerChar_eq_iff|done].
Qed.


End JSFacts.

(** ** The strings of the development inside the wider text *)

Section UnicodeFacts.

Lemma N_of_ascii_eqb (a b : ascii) :
  (N_of_ascii a =? N_of_ascii b)%N = bool_decide (a = b).
Proof.
  destruct (decide (a = b)) as [->|Hne].
  - by rewrite N.eqb_refl, bool_decide_eq_true_2.
  - rewrite bool_decide_eq_false_2 by done. apply N.eqb_neq.
    intros Heq. apply Hne.
    by rewrite <- (ascii_N_embedding a), <- (ascii_N_embedding b), Heq.
Qed.

(** On a code unit below 256 the wider lower-casing is the one of the
    development, whatever stands around it. *)
Lemma lowerUnit_ofAscii (final : bool) (c : ascii) :
  Unicode.lowerUnit final (N_of_ascii c) = N_of_ascii (JS.lowerChar c).
Proof.
  destruct final;
    destruct c as [[] [] [] [] [] [] [] []]; vm_compute; reflexivity.
Qed.

Lemma lowerFrom_ofString (before : list N) (s : string) :
  Unicode.lowerFrom before (Unicode.ofString s)
  = Unicode.ofString (JS.toLowerCase s).
Proof.
  revert before. induction s as [|c s IH]; intros before; simpl; [done|].
  by rewrite lowerUnit_ofAscii, IH.
Qed.

Lemma toLowerCase_ofString (s : string) :
  Unicode.toLowerCase (Unicode.ofString s)
  = Unicode.ofString (JS.toLowerCase s).
Proof. apply lowerFrom_ofString. Qed.

Lemma startsWith_ofString (s p : string) :
  Unicode.startsWith (Unicode.ofString s) (Unicode.ofString p)
  = JS.startsWith s p.
Proof.
  revert s. induction p as [|b p IH]; intros [|a s]; simpl; try done.
  by rewrite N_of_ascii_eqb, IH.
Qed.

Lemma includes_ofString (s t : string) :
  Unicode.includes (Unicode.ofString s) (Unicode.ofString t)
  = JS.includes s t.
Proof.
  induction s as [|c s IH]; simpl.
  - by rewrite <- startsWith_ofString.
  - by rewrite <- startsWith_ofString, IH.
Qed.

(** On rows and search texts of the development, the test of the filter
    is the test on the wider text. *)
Lemma rowShown_ofString (site_name stage search : string) :
  Unicode.rowShown (Unicode.ofString site_name) (Unicode.ofString stage)
                   (Unicode.ofString search)
  = JS.includes (JS.toLowerCase site_name) (JS.toLowerCase search)
    || JS.includes (JS.toLowerCase stage) (JS.toLowerCase search).
Proof.
  unfold Unicode.rowShown. by rewrite !toLowerCase_ofString, !includes_ofString.
Qed.

End UnicodeFacts.

(** ** Properties of the sign-up form *)

Section LoginProperties.
Import Login.

(** C10: a sign-up whose email does not end with the allowed domain, or
    whose password and confirmation differ, or whose password has fewer
    than 6 characters, ends in the synchronous part of the handler with
    one dialog: the form state is untouched and no request (in particular
    no account creation) goes to the identity provider. *)
Theorem handleRegister_rejects_before_network (st : State) :
  (¬ (∃ pre, email st = pre +:+ "@seewise.ai")
   ∨ password st ≠ confirmPassword st
   ∨ (String.length (password st) < 6)%nat) →
  ∃ message,
    handleRegister st = (st, [Alert message])
    ∧ Forall (λ e, isNetworkCall e = false) (handleRegister st).2
    ∧ ∀ e p, CreateUserWithEmailAndPassword e p ∉ (handleRegister st).2.
Proof.
  intros Hbad. unfold handleRegister.
  destruct (JS.endsWith (email st) "@seewise.ai") eqn:Hdom; simpl.
  - apply endsWith_spec in Hdom.
    case_bool_decide as Hpw; [|case_bool_decide as Hlen].
    + eexists; split_and!; [done|by repeat constructor|].
      intros e p Hin. by apply list_elem_of_singleton in Hin.
    + eexists; split_and!; [done|by repeat constructor|].
      intros e p Hin. by apply list_elem_of_singleton in Hin.
    + exfalso. destruct Hbad as [Hb|[Hb|Hb]]; [by apply Hb| |lia].
      by apply Hb, dec_stable.
  - eexists; split_and!; [done|by repeat constructor|].
    intros e p Hin. by apply list_elem_of_singleton in Hin.
Qed.

Lemma handleRegister_rejects_before_network_witness :
  ∃ message,
    handleRegister
      {| mode := register; email := "eve@example.com"; password := "hunter22";
         confirmPassword := "hunter22"; fullName := "Eve"; loading := false |}
    = ({| mode := register; email := "eve@example.com"; password := "hunter22";
          confirmPassword := "hunter22"; fullName := "Eve"; loading := false |},
       [Alert message]).
Proof.
  destruct (handleRegister_rejects_before_network
    {| mode := register; email := "eve@example.com"; password := "hunter22";
       confirmPassword := "hunter22"; fullName := "Eve"; loading := false |})
    as (message & Hm & _).
  - left. rewrite <- endsWith_spec. vm_compute. discriminate.
  - exists message. exact Hm.
Defined.

(** A well-formed sign-up does reach the identity provider. *)
Example handleRegister_accepts :
  (handleRegister
     {| mode := register; email := "ann@seewise.ai"; password := "s3cret!";
        confirmPassword := "s3cret!"; fullName := ""; loading := false |}).2
  = [CreateUserWithEmailAndPassword "ann@seewise.ai" "s3cret!"].
Proof. reflexivity. Qed.

End LoginProperties.

(** ** Properties of the search box *)

Section SearchProperties.
Import Search.

(** Whatever [searchLocations] sends carries no abort signal. *)
Lemma fetchInit_no_signal (p : Provider) : signal (fetchInit p) = None.
Proof. by destruct p. Qed.

(** C5: on a text of fewer than 3 characters [searchLocations] empties the
    suggestion list and sends nothing: the lookups in flight, the number
    of lookups issued and the abort controller are as they were. *)
Theorem searchLocations_short_query (q : string) (w : Component) :
  (String.length q < 3)%nat →
  suggestions (ui (searchLocations q w)) = []
  ∧ pending (searchLocations q w) = pending w
  ∧ nextRequest (searchLocations q w) = nextRequest w
  ∧ abortControllerRef (searchLocations q w) = abortControllerRef w
  ∧ aborted (searchLocations q w) = aborted w.
Proof.
  intros Hshort. unfold searchLocations.
  rewrite (bool_decide_eq_true_2 _ Hshort), orb_true_r.
  by repeat split.
Qed.

Lemma searchLocations_short_query_witness :
  suggestions (ui (searchLocations "pa"
    (withUi (setSuggestions [paris]) (initial photon None)))) = [].
Proof.
  apply (searchLocations_short_query "pa"
    (withUi (setSuggestions [paris]) (initial photon None))).
  simpl. lia.
Defined.

(** A text of 3 characters or more does send a lookup. *)
Lemma searchLocations_long_query (q : string) (w : Component) :
  (3 ≤ String.length q)%nat →
  pending (searchLocations q w) !! nextRequest w
  = Some {| req_provider := apiProvider (ui w); req_query := q;
            req_init := fetchInit (apiProvider (ui w)) |}.
Proof.
  intros Hlong. unfold searchLocations.
  destruct q as [|c q]; [simpl in Hlong; lia|].
  rewrite bool_decide_eq_false_2 by lia. simpl.
  apply lookup_insert_eq.
Qed.

(** C7: how a lookup that came back is applied.  No match: empty list and
    the "no results" message.  An error other than [AbortError]: empty
    list and the "search failed" message.  [AbortError]: nothing but the
    loading flag changes, so no error is set. *)
Theorem searchLocations_resume_outcomes (st : State) :
  (suggestions (searchLocations_resume (Results []) st) = []
   ∧ error (searchLocations_resume (Results []) st) = "No results found")
  ∧ (∀ name, name ≠ "AbortError" →
       suggestions (searchLocations_resume (Throws name) st) = []
       ∧ error (searchLocations_resume (Throws name) st)
         = "Search failed. Please try again.")
  ∧ (searchLocations_resume (Throws "AbortError") st = setIsLoading false st
     ∧ error (searchLocations_resume (Throws "AbortError") st) = error st
     ∧ suggestions (searchLocations_resume (Throws "AbortError") st)
       = suggestions st
     ∧ query (searchLocations_resume (Throws "AbortError") st) = query st).
Proof.
  split_and!; try done.
  intros name Hname. unfold searchLocations_resume.
  by rewrite (bool_decide_eq_true_2 _ Hname).
Qed.

Lemma searchLocations_resume_outcomes_witness :
  error (searchLocations_resume (Throws "TypeError")
          (setSuggestions [paris] (initialState photon)))
  = "Search failed. Please try again.".
Proof.
  destruct (searchLocations_resume_outcomes
              (setSuggestions [paris] (initialState photon)))
    as (_ & Hfail & _).
  apply (Hfail "TypeError"). discriminate.
Defined.

(** A lookup with matches shows them and leaves the error as it is. *)
Lemma searchLocations_resume_results (rs : list Suggestion) (st : State) :
  rs ≠ [] →
  suggestions (searchLocations_resume (Results rs) st) = rs
  ∧ error (searchLocations_resume (Results rs) st) = error st.
Proof.
  intros Hrs. unfold searchLocations_resume.
  destruct rs as [|r rs]; [done|].
  rewrite bool_decide_eq_true_2 by (simpl; lia). done.
Qed.

(** C8: [handleClear], from any state, leaves the query empty, the
    suggestion list empty, no selected position, an empty selected name,
    an empty error and the panel collapsed. *)
Theorem handleClear_resets (st : State) :
  query (handleClear st) = ""
  ∧ suggestions (handleClear st) = []
  ∧ selectedPosition (handleClear st) = None
  ∧ selectedName (handleClear st) = ""
  ∧ error (handleClear st) = ""
  ∧ isExpanded (handleClear st) = false.
Proof. by repeat split. Qed.

(** The clear action is enabled in every state of the component. *)
Lemma step_Clear (w : Component) :
  step Clear w = Some (withUi handleClear w).
Proof. reflexivity. Qed.

(** Were the map ref empty, the cells would be written and nothing
    recentred. *)
Lemma handleSelect_without_map :
  ¬ select_spec paris (initial photon None).
Proof.
  intros (_ & _ & _ & _ & _ & m & Hm & _). simpl in Hm. discriminate.
Qed.

(** [handleSelect] in any state: it stores the suggestion's coordinate and
    name, empties the suggestion list, collapses the panel and empties
    the error; the map held by the ref, if there is one, is moved to the
    coordinate at zoom 14. *)
Theorem handleSelect_effect (place : Suggestion) (w : Component) :
  selectedPosition (ui (handleSelect place w)) = Some (lat place, lon place)
  ∧ selectedName (ui (handleSelect place w)) = display_name place
  ∧ suggestions (ui (handleSelect place w)) = []
  ∧ isExpanded (ui (handleSelect place w)) = false
  ∧ error (ui (handleSelect place w)) = ""
  ∧ mapRef (handleSelect place w)
    = (λ _, {| center := (lat place, lon place); zoom := 14 |}) <$> mapRef w.
Proof. split_and!; try done; simpl; by destruct (mapRef w). Qed.

(** With a mounted map the specified behaviour holds in full. *)
Lemma handleSelect_with_map (place : Suggestion) (w : Component) :
  is_Some (mapRef w) → select_spec place w.
Proof.
  intros [m Hm]. unfold select_spec. split_and!; try done.
  eexists. simpl. rewrite Hm. done.
Qed.

(** Nothing empties the map ref. *)
Lemma step_keeps_map (e : Event) (w w' : Component) :
  step e w = Some w' → is_Some (mapRef w) → is_Some (mapRef w').
Proof.
  assert (∀ q w0, mapRef (searchLocations q w0) = mapRef w0) as Hsearch.
  { intros q w0. unfold searchLocations. by destruct (negb _ || _). }
  destruct e; simpl; try (by intros [= <-]).
  - intros [= <-]. unfold debounceElapsed.
    case_bool_decide; [done|]. by rewrite Hsearch.
  - unfold settle. destruct (pending w !! rid); [|done].
    destruct (permitted _ _ _); [|done]. by intros [= <-].
  - intros [= <-] [m Hm]. simpl. rewrite Hm. eauto.
  - intros [= <-]. unfold changeProvider.
    case_bool_decide; [done|]. by rewrite Hsearch.
Qed.

Lemma run_keeps_map (es : list Event) (w w' : Component) :
  run es w = Some w' → is_Some (mapRef w) → is_Some (mapRef w').
Proof.
  revert w. induction es as [|e es IH]; intros w; simpl.
  - by intros [= <-].
  - destruct (step e w) as [w1|] eqn:Hstep; [|done].
    intros Hrun Hmap. eapply IH; [done|]. by eapply step_keeps_map.
Qed.

(** C9: the search box sits beside the map, whose instance the ref holds
    from the mount on.  In every state the box can then come to, selecting
    any suggestion sets the selected location to the suggestion's name
    and coordinate, empties the suggestion list, collapses the results
    panel, empties the error and recentres the map to the suggestion's
    coordinate. *)
Theorem handleSelect_on_mounted_map (p : Provider) (map : MapView)
    (es : list Event) (w : Component) (place : Suggestion) :
  run es (initial p (Some map)) = Some w →
  select_spec place w.
Proof.
  intros Hrun. apply handleSelect_with_map.
  eapply run_keeps_map; [done|]. simpl. eauto.
Qed.

Lemma handleSelect_on_mounted_map_witness :
  ∃ w, run [InputChange "par"; DebounceElapsed; Settle 0 (Results [paris])]
           (initial photon (Some {| center := (40.5, -80.5)%float;
                                    zoom := 4 |})) = Some w
       ∧ suggestions (ui w) = [paris]
       ∧ select_spec paris w.
Proof.
  eexists. split; [vm_compute; reflexivity|]. split; [reflexivity|].
  eapply (handleSelect_on_mounted_map photon
            {| center := (40.5, -80.5)%float; zoom := 4 |}
            [InputChange "par"; DebounceElapsed;
             Settle 0 (Results [paris])]).
  vm_compute. reflexivity.
Defined.

Lemma searchLocations_unsignalled (q : string) (w : Component) :
  unsignalled w → unsignalled (searchLocations q w).
Proof.
  intros Hw rid r. unfold searchLocations.
  destruct (negb _ || _); [apply Hw|]. simpl.
  destruct (decide (nextRequest w = rid)) as [->|Hne].
  - rewrite lookup_insert_eq. intros [= <-]. apply fetchInit_no_signal.
  - rewrite lookup_insert_ne by done. apply Hw.
Qed.

Lemma step_unsignalled (e : Event) (w w' : Component) :
  unsignalled w → step e w = Some w' → unsignalled w'.
Proof.
  intros Hw. destruct e; simpl; try (intros [= <-]; exact Hw).
  - intros [= <-]. unfold debounceElapsed. case_bool_decide; [done|].
    by apply searchLocations_unsignalled.
  - unfold settle. destruct (pending w !! rid) as [r|] eqn:Hr; [|done].
    destruct (permitted _ _ _); [|done]. intros [= <-] rid' r'. simpl.
    intros Hin%lookup_delete_Some. by apply (Hw rid'), Hin.
  - intros [= <-]. unfold changeProvider. case_bool_decide; [done|].
    by apply searchLocations_unsignalled.
Qed.

Lemma run_unsignalled (es : list Event) (w w' : Component) :
  unsignalled w → run es w = Some w' → unsignalled w'.
Proof.
  revert w. induction es as [|e es IH]; intros w Hw; simpl.
  - by intros [= <-].
  - destruct (step e w) as [w1|] eqn:Hstep; [|done].
    apply IH. by eapply step_unsignalled.
Qed.

(** So aborting a controller never stops a lookup: whichever lookup is
    in flight, its matches are shown when it comes back, be its
    controller aborted or not. *)
Lemma settle_applies_any_pending (w : Component) (rid : nat) (r : Request)
    (rs : list Suggestion) :
  unsignalled w → pending w !! rid = Some r → rs ≠ [] →
  ∃ w', settle rid (Results rs) w = Some w' ∧ suggestions (ui w') = rs.
Proof.
  intros Hw Hr Hrs. unfold settle, permitted. rewrite Hr, (Hw rid r Hr).
  simpl. eexists; split; [done|]. simpl.
  by apply searchLocations_resume_results.
Qed.

(** C1 on the code: "par" is looked up, then "pari" while the first lookup
    is still out; the second lookup's controller replaces the first, which
    is aborted.  The second lookup comes back with Paris, then the first
    with Parma: the first, superseded lookup is applied, and the list shown
    for "pari" is the answer to "par". *)
Theorem superseded_lookup_is_applied :
  ∃ w,
    run [InputChange "par"; DebounceElapsed;
         InputChange "pari"; DebounceElapsed;
         Settle 1 (Results [paris]);
         Settle 0 (Results [parma])]
        (initial photon None) = Some w
    ∧ 0 ∈ aborted w
    ∧ query (ui w) = "pari"
    ∧ suggestions (ui w) = [parma].
Proof.
  eexists. split; [vm_compute; reflexivity|].
  split; [|split; reflexivity].
  apply (bool_decide_unpack _). vm_compute. exact I.
Qed.

End SearchProperties.

(** ** Facts about live queries *)

Section FirestoreFacts.
Import Firestore.

#[global] Instance precedes_total (q : list QueryConstraint) :
  Total (precedes q).
Proof.
  intros a b. induction q as [|[f v|f dir] q IH]; simpl; [by left|done|].
  destruct (decide (get f a = get f b)) as [Heq|Hne].
  - by rewrite decide_True.
  - rewrite decide_False by congruence.
    destruct dir, (total String.le (get f a) (get f b)); auto.
Qed.

#[global] Instance precedes_trans (q : list QueryConstraint) :
  Transitive (precedes q).
Proof.
  intros a b c. induction q as [|[f v|f dir] q IH]; simpl; [done|done|].
  destruct (decide (get f a = get f b)) as [Hab|Hab];
    destruct (decide (get f b = get f c)) as [Hbc|Hbc].
  - rewrite decide_True by congruence. exact IH.
  - rewrite decide_False by congruence. rewrite Hab. auto.
  - rewrite decide_False by congruence. rewrite <- Hbc. auto.
  - intros H1 H2.
    assert (get f a ≠ get f c) as Hac.
    { intros Hac. rewrite Hac in H1, Hab.
      destruct dir; apply Hab; by apply (anti_symm String.le). }
    rewrite decide_False by done.
    destruct dir; by etrans.
Qed.

#[global] Instance byId_total (d : Direction) : Total (byId d).
Proof. intros a b. destruct d; simpl; apply (total String.le). Qed.

#[global] Instance byId_trans (d : Direction) : Transitive (byId d).
Proof. intros a b c. destruct d; simpl; intros; by etrans. Qed.

#[global] Instance docs_order_total (q : list QueryConstraint) :
  Total (docs_order q).
Proof.
  intros a b. unfold docs_order.
  destruct (decide (precedes q a.2 b.2)) as [Hab|Hab];
    destruct (decide (precedes q b.2 a.2)) as [Hba|Hba].
  - destruct (total (byId (lastDirection asc q)) a.1 b.1); auto.
  - left. split; [done|]. by intros ?.
  - right. split; [done|]. by intros ?.
  - destruct (total (precedes q) a.2 b.2); done.
Qed.

#[global] Instance docs_order_trans (q : list QueryConstraint) :
  Transitive (docs_order q).
Proof.
  intros a b c [Hab Hab'] [Hbc Hbc']. split; [by etrans|].
  intros Hca.
  assert (precedes q b.2 a.2) as Hba by (by etrans).
  assert (precedes q c.2 b.2) as Hcb by (by etrans).
  etrans; eauto.
Qed.

(** Documents with different values of the last ordered field never come
    in the order of their identifiers alone. *)
Lemma docs_order_precedes (q : list QueryConstraint) (a b : Doc) :
  docs_order q a b → precedes q a.2 b.2.
Proof. by intros [? _]. Qed.

(** A live query delivers exactly the stored documents that pass its
    filters. *)
Lemma elem_of_runQuery (q : list QueryConstraint)
    (coll : gmap string ClientData) (x : Doc) :
  x ∈ runQuery q coll ↔ coll !! x.1 = Some x.2 ∧ matches q x.2 = true.
Proof.
  unfold runQuery. rewrite merge_sort_Permutation, list_elem_of_filter.
  destruct x as [i d]. rewrite elem_of_map_to_list. simpl. tauto.
Qed.

(** It delivers them in the order it asks for. *)
Lemma runQuery_sorted (q : list QueryConstraint)
    (coll : gmap string ClientData) :
  StronglySorted (docs_order q) (runQuery q coll).
Proof. apply StronglySorted_merge_sort; apply _. Qed.

(** It delivers no document twice. *)
Lemma runQuery_NoDup (q : list QueryConstraint)
    (coll : gmap string ClientData) :
  NoDup (runQuery q coll).
Proof.
  unfold runQuery. rewrite merge_sort_Permutation.
  apply NoDup_filter, NoDup_map_to_list.
Qed.

Lemma matches_app (q1 q2 : list QueryConstraint) (d : ClientData) :
  matches (q1 ++ q2) d = matches q1 d && matches q2 d.
Proof.
  induction q1 as [|[f v|f dir] q1 IH]; simpl; [done| |done].
  by rewrite IH, andb_assoc.
Qed.

End FirestoreFacts.

(** ** Properties of the dashboard *)

Section DashboardProperties.
Import Firestore Dashboard.

(** Which documents pass the subscription's query. *)
Lemma matches_clientsQuery (user : User) (d : ClientData) :
  matches (clientsQuery user) d = true
  ↔ isAdmin user = true ∨ salesperson d = email user.
Proof.
  unfold clientsQuery. rewrite matches_app. simpl. rewrite andb_true_r.
  destruct (isAdmin user); simpl.
  - split; [by left|done].
  - rewrite andb_true_r, bool_decide_eq_true.
    split; [by right|by intros [?|?]].
Qed.

(** The subscription's order is newest timestamp first. *)
Lemma precedes_clientsQuery (user : User) (a b : ClientData) :
  precedes (clientsQuery user) a b → String.le (timestamp b) (timestamp a).
Proof.
  unfold clientsQuery. destruct (isAdmin user); simpl;
    (destruct (decide (timestamp a = timestamp b)) as [->|_];
     [reflexivity|done]).
Qed.

Lemma newest_first_snapshot (user : User) (coll : gmap string ClientData) :
  newest_first (snapshotData (runQuery (clientsQuery user) coll)).
Proof.
  unfold newest_first, snapshotData.
  apply (StronglySorted_fmap _ (docs_order (clientsQuery user))).
  - intros a b Hab%docs_order_precedes. by eapply precedes_clientsQuery.
  - apply runQuery_sorted.
Qed.

Lemma elem_of_snapshot (user : User) (coll : gmap string ClientData)
    (m : Marker) :
  m ∈ snapshotData (runQuery (clientsQuery user) coll)
  ↔ ∃ i, id m = Some i ∧ coll !! i = Some (data m)
         ∧ (isAdmin user = true ∨ salesperson (data m) = email user).
Proof.
  unfold snapshotData. rewrite list_elem_of_fmap. split.
  - intros ([i d] & -> & Hin). apply elem_of_runQuery in Hin as [Hi Hm].
    exists i. simpl in *. by rewrite <- matches_clientsQuery.
  - intros (i & Hid & Hi & Hm). exists (i, data m). split.
    + destruct m as [mi md]. simpl in *. by subst.
    + apply elem_of_runQuery. simpl. by rewrite matches_clientsQuery.
Qed.

(** Only a snapshot touches the local list. *)
Lemma step_markers (user : User) (e : Event) (st : State) :
  isSnapshot e = false → markers (step user e st) = markers st.
Proof. by destruct e. Qed.

Lemma run_markers (user : User) (es : list Event) (st : State) :
  forallb (λ e, negb (isSnapshot e)) es = true →
  markers (run user es st) = markers st.
Proof.
  revert st. induction es as [|e es IH]; intros st; simpl; [done|].
  intros [He Hes]%andb_true_iff. unfold run in *. simpl.
  rewrite IH by done. apply step_markers. by destruct (isSnapshot e).
Qed.

Lemma run_app (user : User) (es1 es2 : list Event) (st : State) :
  run user (es1 ++ es2) st = run user es2 (run user es1 st).
Proof. apply foldl_app. Qed.

Lemma markers_last_snapshot (user : User) (es rest : list Event)
    (coll : gmap string ClientData) (st : State) :
  forallb (λ e, negb (isSnapshot e)) rest = true →
  markers (run user (es ++ Snapshot coll :: rest) st)
  = snapshotData (runQuery (clientsQuery user) coll).
Proof.
  intros Hrest. rewrite run_app.
  change (run user (Snapshot coll :: rest) ?s)
    with (run user rest (step user (Snapshot coll) s)).
  by rewrite run_markers.
Qed.

(** C2, as specified, fails before the first snapshot: the list starts
    with the six sample rows, none of them the user's. *)
Lemma sample_rows_visible :
  ¬ visible_spec {| email := "bob@seewise.ai" |}
      (initialState (λ _, "2025-06-01T09:00:00.000Z")).
Proof.
  intros [Hown _].
  specialize (Hown eq_refl _ (list_elem_of_here _ _)). discriminate.
Qed.

(** C2, amended: from the first snapshot on, the local list is the last
    snapshot.  For a user who is not the administrator it holds the stored
    records whose salesperson is the user's email and no other row; for
    the administrator it holds every stored record; either way newest
    timestamp first. *)
Theorem markers_after_snapshot (user : User) (es rest : list Event)
    (coll : gmap string ClientData) (st : State) :
  forallb (λ e, negb (isSnapshot e)) rest = true →
  let ms := markers (run user (es ++ Snapshot coll :: rest) st) in
  (isAdmin user = false →
   ∀ m, m ∈ ms ↔ ∃ i, id m = Some i ∧ coll !! i = Some (data m)
                      ∧ salesperson (data m) = email user)
  ∧ (isAdmin user = true →
     ∀ m, m ∈ ms ↔ ∃ i, id m = Some i ∧ coll !! i = Some (data m))
  ∧ newest_first ms.
Proof.
  intros Hrest ms. unfold ms. rewrite markers_last_snapshot by done.
  split_and!.
  - intros Hna m. rewrite elem_of_snapshot, Hna.
    split; intros (i & Hid & Hi & Hs); exists i; [|by auto].
    by destruct Hs.
  - intros Ha m. rewrite elem_of_snapshot, Ha.
    split; [intros (i & Hid & Hi & _)|intros (i & Hid & Hi)]; exists i; auto.
  - apply newest_first_snapshot.
Qed.

End DashboardProperties.

Section FormProperties.
Import Firestore Dashboard.

(** The document the form builds carries the form's fields, the
    coordinate and the clock reading. *)
Lemma handleFormSubmit_payload (now : string) (st : State) (w : Write) :
  handleFormSubmit now st = Some w →
  ∃ la ln,
    formLatLng st = Some (la, ln)
    ∧ payload w
      = {| site_name := form_site_name (formData st);
           description := form_description (formData st);
           salesperson := form_salesperson (formData st);
           stage := form_stage (formData st);
           lat := la; lng := ln; timestamp := now |}.
Proof.
  unfold handleFormSubmit.
  destruct (formLatLng st) as [[la ln]|]; [|done].
  intros Hw. exists la, ln. split; [done|].
  destruct (editingId st) as [docId|];
    [destruct (editMode st && JS.truthy docId)|]; by injection Hw as <-.
Qed.

(** A form with a coordinate and no record under edit is a creation, and
    the store takes it under any fresh identifier. *)
Lemma handleFormSubmit_creates (now newId : string) (st : State)
    (la ln : float) (coll : gmap string ClientData) :
  formLatLng st = Some (la, ln) → editMode st = false →
  coll !! newId = None →
  ∃ d, handleFormSubmit now st = Some (AddDoc d)
       ∧ perform newId (AddDoc d) coll = Some (<[newId := d]> coll).
Proof.
  intros Hll Hedit Hfresh. unfold handleFormSubmit. rewrite Hll, Hedit.
  destruct (editingId st); simpl; eexists; (split; [done|]);
    unfold addDoc; by rewrite Hfresh.
Qed.

(** C3, as specified, fails for a user who is not the administrator and
    files the record under another salesperson: the record is stored, and
    the user's own snapshot does not have it. *)
Lemma create_for_other_salesperson_not_visible :
  ¬ create_spec bob draftForAlice "2025-06-01T12:05:00.000Z" "c9" ∅.
Proof.
  intros Hspec.
  destruct (Hspec _ _ eq_refl eq_refl) as (m & Hin & _ & _ & _ & Hs & _).
  apply elem_of_snapshot in Hin as (i & _ & _ & [Hadm|Hown]).
  - discriminate.
  - rewrite Hs in Hown. discriminate.
Qed.

(** C3, amended: when the user is the administrator, or the form's
    salesperson is the user's own email, the snapshot of the collection
    after a creation went through has a row with the submitted name,
    description, salesperson, stage and coordinate, the identifier the
    store gave, and the timestamp of the submission. *)
Theorem create_visible_in_snapshot (user : User) (st : State)
    (now newId : string) (coll : gmap string ClientData) :
  isAdmin user = true ∨ form_salesperson (formData st) = email user →
  create_spec user st now newId coll.
Proof.
  intros Hvis d coll' Hsub Hadd.
  apply handleFormSubmit_payload in Hsub as (la & ln & Hll & Hd).
  simpl in Hd, Hadd. unfold addDoc in Hadd.
  destruct (coll !! newId) eqn:Hfresh; [done|]. injection Hadd as <-.
  exists {| id := Some newId; data := d |}. rewrite Hll, Hd. simpl.
  split_and!; try done.
  apply elem_of_snapshot. exists newId. simpl.
  rewrite lookup_insert_eq. by subst d.
Qed.

Lemma create_visible_in_snapshot_witness :
  ∃ d coll' m,
    handleFormSubmit "2025-06-01T12:05:00.000Z" draftOwn = Some (AddDoc d)
    ∧ perform "c9" (AddDoc d) ∅ = Some coll'
    ∧ m ∈ snapshotData (runQuery (clientsQuery bob) coll')
    ∧ id m = Some "c9"
    ∧ site_name (data m) = "Initech"
    ∧ salesperson (data m) = "bob@seewise.ai"
    ∧ stage (data m) = "POC Stage"
    ∧ timestamp (data m) = "2025-06-01T12:05:00.000Z".
Proof.
  edestruct (create_visible_in_snapshot bob draftOwn
               "2025-06-01T12:05:00.000Z" "c9" ∅ (or_intror eq_refl))
    as (m & Hin & Hid & Hname & _ & Hs & Hst & _ & Ht).
  { vm_compute. reflexivity. }
  { vm_compute. reflexivity. }
  eexists _, _, m.
  split; [vm_compute; reflexivity|].
  split; [vm_compute; reflexivity|].
  split; [exact Hin|].
  split_and!; assumption.
Defined.

(** The newest visible document comes first in the snapshot. *)
Lemma head_snapshot_newest (user : User) (coll : gmap string ClientData)
    (i : string) (d : ClientData) :
  coll !! i = Some d →
  isAdmin user = true ∨ salesperson d = email user →
  (∀ j o, j ≠ i → coll !! j = Some o →
          ¬ String.le (timestamp d) (timestamp o)) →
  head (snapshotData (runQuery (clientsQuery user) coll))
  = Some {| id := Some i; data := d |}.
Proof.
  intros Hi Hvis Hnew.
  assert ((i, d) ∈ runQuery (clientsQuery user) coll) as Hin.
  { apply elem_of_runQuery. simpl. by rewrite matches_clientsQuery. }
  pose proof (runQuery_sorted (clientsQuery user) coll) as Hsorted.
  assert (∀ x, x ∈ runQuery (clientsQuery user) coll → coll !! x.1 = Some x.2)
    as Hstored by (intros x Hx; by apply elem_of_runQuery in Hx as [? _]).
  destruct (runQuery (clientsQuery user) coll) as [|[j o] l]; simpl.
  - by apply elem_of_nil in Hin.
  - assert (coll !! j = Some o) as Hj by apply (Hstored (j, o)), list_elem_of_here.
    destruct (decide (j = i)) as [->|Hne].
    + rewrite Hi in Hj. by injection Hj as <-.
    + exfalso. apply (Hnew j o Hne Hj).
      apply elem_of_cons in Hin as [[=]|Hin]; [congruence|].
      apply StronglySorted_inv in Hsorted as [_ Hall].
      rewrite Forall_forall in Hall.
      apply (precedes_clientsQuery user o d).
      apply (docs_order_precedes _ (j, o) (i, d)), (Hall _ Hin).
Qed.

(** C4: whatever the form sends, a creation or an update, carries the
    clock reading of the submission as its timestamp.  An update that
    goes through puts that document, with the new timestamp, in place of
    the stored one, whose timestamp is lost; when the submission is later
    than every other record's timestamp, the record becomes the first row
    of the snapshot of every user who sees it. *)
Theorem handleFormSubmit_timestamp (now : string) (st : State) (w : Write) :
  handleFormSubmit now st = Some w →
  timestamp (payload w) = now
  ∧ ∀ docId d old newId coll,
      w = UpdateDoc docId d → coll !! docId = Some old →
      perform newId w coll = Some (<[docId := d]> coll)
      ∧ (<[docId := d]> coll) !! docId = Some d
      ∧ timestamp d = now
      ∧ ∀ user,
          isAdmin user = true ∨ salesperson d = email user →
          (∀ j o, j ≠ docId → coll !! j = Some o →
                  ¬ String.le now (timestamp o)) →
          head (snapshotData
                  (runQuery (clientsQuery user) (<[docId := d]> coll)))
          = Some {| id := Some docId; data := d |}.
Proof.
  intros Hsub.
  apply handleFormSubmit_payload in Hsub as (la & ln & _ & Hd).
  split; [by rewrite Hd|].
  intros docId d old newId coll -> Hold. simpl in Hd.
  assert (timestamp d = now) as Ht by (by rewrite Hd).
  split_and!.
  - simpl. unfold updateDoc. by rewrite Hold.
  - apply lookup_insert_eq.
  - exact Ht.
  - intros user Hvis Hnew. apply head_snapshot_newest; [|done|].
    + apply lookup_insert_eq.
    + intros j o Hne. rewrite lookup_insert_ne by done.
      rewrite Ht. by apply Hnew.
Qed.

End FormProperties.

(** ** Properties of the sidebar *)

Section SidebarProperties.
Import Firestore Dashboard SidebarSpec.


Example toLowerCase_alphaSigma :
  Unicode.toLowerCase Unicode.alphaSigma = [0x3B1; 0x3C2]%N
  ∧ Unicode.toLowerCase Unicode.sigma = [0x3C3]%N.
Proof. split; vm_compute; reflexivity. Qed.


Example filteredMarkers_sample :
  (λ m, site_name (data m))
    <$> filteredMarkers (sampleMarkers noon) "CLIENT"
  = ["Wayne Enterprises"; "Global Systems"].
Proof. vm_compute. reflexivity. Qed.

Example filteredMarkers_by_name :
  (λ m, site_name (data m)) <$> filteredMarkers (sampleMarkers noon) "glob"
  = ["Globex Inc"; "Global Systems"].
Proof. vm_compute. reflexivity. Qed.

End SidebarProperties.

(** ** The properties on sample runs *)

Section SampleRuns.
Import Firestore Dashboard.

Lemma markers_after_snapshot_witness :
  newest_first
    (markers (run bob ([MapClick (30.27, -97.74)%float]
                       ++ Snapshot twoClients :: [SearchChange "ini"])
                  (initialState noon))).
Proof.
  exact (proj2 (proj2 (markers_after_snapshot bob
           [MapClick (30.27, -97.74)%float] [SearchChange "ini"]
           twoClients (initialState noon) eq_refl))).
Defined.

Example markers_after_snapshot_sample :
  (λ m, (id m, site_name (data m)))
    <$> markers (run bob [Snapshot twoClients] (initialState noon))
  = [(Some "c2", "Hooli"); (Some "c1", "Initech")].
Proof. vm_compute. reflexivity. Qed.

(** Records of one timestamp come by identifier, the greatest first. *)
Example snapshot_ties_by_id :
  (λ m, id m)
    <$> snapshotData
          (runQuery (clientsQuery bob)
             (<["b" := initech]> (<["c" := initech]> (<["a" := initech]> ∅))))
  = [Some "c"; Some "b"; Some "a"].
Proof. vm_compute. reflexivity. Qed.

Lemma handleFormSubmit_timestamp_witness :
  ∃ d,
    handleFormSubmit "2025-06-01T12:30:00.000Z" editInitech
    = Some (UpdateDoc "c1" d)
    ∧ timestamp d = "2025-06-01T12:30:00.000Z"
    ∧ head (snapshotData (runQuery (clientsQuery bob) twoClients))
      = Some {| id := Some "c2"; data := hooli |}
    ∧ head (snapshotData
              (runQuery (clientsQuery bob) (<["c1" := d]> twoClients)))
      = Some {| id := Some "c1"; data := d |}.
Proof.
  pose (d := {| site_name := "Initech"; description := "Austin";
                salesperson := "bob@seewise.ai"; stage := "Current Client";
                lat := 30.27; lng := -97.74;
                timestamp := "2025-06-01T12:30:00.000Z" |}).
  assert (handleFormSubmit "2025-06-01T12:30:00.000Z" editInitech
          = Some (UpdateDoc "c1" d)) as Hsub by (vm_compute; reflexivity).
  exists d. split; [exact Hsub|].
  destruct (handleFormSubmit_timestamp _ _ _ Hsub) as [Hnow Hupd].
  split; [exact Hnow|]. split; [vm_compute; reflexivity|].
  destruct (Hupd "c1" d initech "c9" twoClients eq_refl)
    as (_ & _ & _ & Hhead).
  { vm_compute. reflexivity. }
  apply (Hhead bob); [right; reflexivity|].
  intros j o Hne. unfold twoClients. rewrite lookup_insert_ne by done.
  destruct (decide (j = "c2")) as [->|Hne2].
  - rewrite lookup_insert_eq. intros [= <-]. vm_compute. intros [].
  - rewrite lookup_insert_ne by done. by rewrite lookup_empty.
Defined.

End SampleRuns.

(** ** More on the search box: numbering, debounce, what stays in flight *)

Section SearchMore.
Import Search.

Lemma search_run_app (es1 es2 : list Event) (w : Component) :
  run (es1 ++ es2) w = run es1 w ≫= run es2.
Proof.
  revert w. induction es1 as [|e es1 IH]; intros w; simpl; [done|].
  destruct (step e w); [apply IH|done].
Qed.

Lemma initial_numbered (p : Provider) (map : option MapView) :
  numbered (initial p map).
Proof. by split_and!. Qed.

Lemma searchLocations_numbered (q : string) (w : Component) :
  numbered w → numbered (searchLocations q w).
Proof.
  intros (Hn & Hp & Hc). unfold searchLocations.
  destruct (negb _ || _); [done|].
  split_and!; simpl.
  - by rewrite Hn.
  - intros rid r. destruct (decide (nextRequest w = rid)) as [<-|Hne].
    + lia.
    + rewrite lookup_insert_ne by done. intros Hr%Hp. lia.
  - split; [done|]. intros c'.
    destruct (abortControllerRef w) as [c|].
    + destruct Hc as [-> Hc]. rewrite elem_of_union, elem_of_singleton, Hc.
      lia.
    + destruct Hc as [-> ->]. rewrite elem_of_empty. lia.
Qed.

Lemma step_numbered (e : Event) (w w' : Component) :
  numbered w → step e w = Some w' → numbered w'.
Proof.
  intros Hw. destruct e; simpl; try (intros [= <-]; exact Hw).
  - intros [= <-]. unfold debounceElapsed. case_bool_decide; [done|].
    by apply searchLocations_numbered.
  - unfold settle. destruct (pending w !! rid) as [r|]; [|done].
    destruct (permitted _ _ _); [|done]. intros [= <-].
    destruct Hw as (Hn & Hp & Hc). split_and!; simpl; [done| |done].
    intros rid' r' [_ Hr]%lookup_delete_Some. by eapply Hp.
  - intros [= <-]. unfold changeProvider. case_bool_decide; [done|].
    by apply searchLocations_numbered.
Qed.

Lemma run_numbered (es : list Event) (w w' : Component) :
  numbered w → run es w = Some w' → numbered w'.
Proof.
  revert w. induction es as [|e es IH]; intros w Hw; simpl.
  - by intros [= <-].
  - destruct (step e w) as [w1|] eqn:Hstep; [|done].
    apply IH. by eapply step_numbered.
Qed.

(** X1: whatever happened to the component since it was mounted, the
    controller held by the ref is the one made for the last lookup issued,
    it has not been aborted, and every controller made before it has. *)
Theorem controller_in_ref_is_live (p : Provider) (map : option MapView)
    (es : list Event) (w : Component) (c : nat) :
  run es (initial p map) = Some w →
  abortControllerRef w = Some c →
  nextRequest w = S c
  ∧ (c ∉ aborted w)
  ∧ ∀ c', (c' < c)%nat → c' ∈ aborted w.
Proof.
  intros Hrun Hc.
  destruct (run_numbered _ _ _ (initial_numbered p map) Hrun)
    as (Hn & _ & Href).
  rewrite Hc in Href. destruct Href as [Hnext Hab].
  split_and!.
  - by rewrite Hn.
  - rewrite Hab. lia.
  - intros c'. by rewrite Hab.
Qed.

Lemma controller_in_ref_is_live_witness :
  ∃ w, run [InputChange "par"; DebounceElapsed;
            InputChange "pari"; DebounceElapsed]
           (initial photon None) = Some w
       ∧ abortControllerRef w = Some 1%nat
       ∧ nextRequest w = 2%nat
       ∧ (1%nat ∉ aborted w).
Proof.
  eexists. split; [vm_compute; reflexivity|]. split; [reflexivity|].
  refine ((λ H, conj (proj1 H) (proj1 (proj2 H)))
            (controller_in_ref_is_live photon None
               [InputChange "par"; DebounceElapsed;
                InputChange "pari"; DebounceElapsed] _ 1%nat _ _));
    vm_compute; reflexivity.
Defined.

End SearchMore.

Section SearchDebounce.
Import Search.

(** The cells after the texts [vs] were typed one after the other. *)
Lemma run_typing (vs : list string) (w : Component) :
  run (InputChange <$> vs) w
  = Some (withUi (λ st, foldl (λ st v, handleInputChange v st) st vs) w).
Proof.
  revert w. induction vs as [|v vs IH]; intros w; simpl.
  - by destruct w.
  - rewrite IH. by destruct w.
Qed.

Lemma handleInputChange_cells (v : string) (st : State) :
  query (handleInputChange v st) = v
  ∧ error (handleInputChange v st) = ""
  ∧ apiProvider (handleInputChange v st) = apiProvider st
  ∧ suggestions (handleInputChange v st) = suggestions st.
Proof. unfold handleInputChange. by case_bool_decide. Qed.

Lemma typing_cells (vs : list string) (st : State) :
  query (foldl (λ st v, handleInputChange v st) st vs)
  = default (query st) (last vs)
  ∧ apiProvider (foldl (λ st v, handleInputChange v st) st vs)
    = apiProvider st
  ∧ suggestions (foldl (λ st v, handleInputChange v st) st vs)
    = suggestions st.
Proof.
  induction vs as [|v vs IH] using rev_ind; [done|].
  rewrite foldl_app, last_snoc. simpl.
  destruct IH as (_ & Hp & Hs).
  destruct (handleInputChange_cells v
              (foldl (λ st v, handleInputChange v st) st vs))
    as (-> & _ & -> & ->). done.
Qed.

(** X3: typing alone, however much, sends nothing: the lookups in flight,
    the number of lookups issued, the controller and the debounced text
    are as they were; the query is the last text typed, and the
    suggestions on screen stay. *)
Theorem typing_issues_no_lookup (vs : list string) (w : Component) :
  ∃ w', run (InputChange <$> vs) w = Some w'
        ∧ pending w' = pending w
        ∧ nextRequest w' = nextRequest w
        ∧ abortControllerRef w' = abortControllerRef w
        ∧ aborted w' = aborted w
        ∧ debouncedQuery w' = debouncedQuery w
        ∧ query (ui w') = default (query (ui w)) (last vs)
        ∧ suggestions (ui w') = suggestions (ui w).
Proof.
  eexists. split; [apply run_typing|].
  destruct (typing_cells vs (ui w)) as (Hq & _ & Hs). by split_and!.
Qed.

(** X4: when the debounce timer runs out after a burst of typing, one
    lookup goes out, for the last text typed (given it has 3 characters
    or more and is not the text already looked up), to the provider set;
    the loading flag is up and the error empty. *)
Theorem debounce_issues_last_text (vs : list string) (v : string)
    (w : Component) :
  (3 ≤ String.length v)%nat → v ≠ debouncedQuery w →
  ∃ w', run ((InputChange <$> (vs ++ [v])%list) ++ [DebounceElapsed])%list w
        = Some w'
        ∧ pending w'
          = <[nextRequest w :=
                {| req_provider := apiProvider (ui w); req_query := v;
                   req_init := fetchInit (apiProvider (ui w)) |}]>
            (pending w)
        ∧ nextRequest w' = S (nextRequest w)
        ∧ debouncedQuery w' = v
        ∧ query (ui w') = v
        ∧ isLoading (ui w') = true
        ∧ error (ui w') = "".
Proof.
  intros Hlen Hnew. rewrite search_run_app, run_typing. simpl.
  destruct (typing_cells (vs ++ [v])%list (ui w)) as (Hq & Hp & _).
  rewrite last_snoc in Hq. simpl in Hq.
  eexists. split; [done|].
  unfold debounceElapsed. simpl. rewrite Hq.
  rewrite bool_decide_eq_false_2 by done.
  unfold searchLocations. simpl.
  destruct v as [|c v]; [simpl in Hlen; lia|].
  rewrite bool_decide_eq_false_2 by lia. simpl. rewrite Hp.
  by split_and!.
Qed.

Lemma debounce_issues_last_text_witness :
  ∃ w', run ((InputChange <$> (["p"; "pa"; "par"] ++ ["pari"])%list)
             ++ [DebounceElapsed])%list (initial nominatim None) = Some w'
        ∧ pending w'
          = <[0%nat := {| req_provider := nominatim; req_query := "pari";
                          req_init := fetchInit nominatim |}]> ∅
        ∧ nextRequest w' = 1%nat.
Proof.
  destruct (debounce_issues_last_text ["p"; "pa"; "par"] "pari"
              (initial nominatim None))
    as (w' & Hrun & Hp & Hn & _); [simpl; lia|discriminate|].
  exists w'. by split_and!.
Defined.

(** X5: a lookup that settles lowers the loading flag, also while another
    lookup is still in flight. *)
Theorem settle_lowers_loading (w w' : Component) (rid rid' : nat)
    (r' : Request) (o : Outcome) :
  rid ≠ rid' → pending w !! rid' = Some r' →
  settle rid o w = Some w' →
  isLoading (ui w') = false ∧ pending w' !! rid' = Some r'.
Proof.
  intros Hne Hr'. unfold settle.
  destruct (pending w !! rid); [|done].
  destruct (permitted _ _ _); [|done]. intros [= <-]. simpl.
  split; [by destruct o|]. by rewrite lookup_delete_ne.
Qed.

Lemma settle_lowers_loading_witness :
  ∃ w', settle 0 (Results [parma])
          (searchLocations "pari"
             (searchLocations "par" (initial photon None))) = Some w'
        ∧ isLoading (ui w') = false
        ∧ pending w' !! 1%nat
          = Some {| req_provider := photon; req_query := "pari";
                    req_init := fetchInit photon |}.
Proof.
  eexists. split; [vm_compute; reflexivity|].
  eapply (settle_lowers_loading
            (searchLocations "pari"
               (searchLocations "par" (initial photon None))) _ 0 1 _
            (Results [parma]));
    [lia|vm_compute; reflexivity..].
Defined.

(** X6: a lookup that came back, other than with [AbortError], leaves
    something to show, suggestions or a message, so the results panel is
    open exactly when the expanded flag is up. *)
Theorem completed_lookup_fills_panel (o : Outcome) (st : State) :
  isAbortError o = false →
  (suggestions (searchLocations_resume o st) ≠ []
   ∨ error (searchLocations_resume o st) ≠ "")
  ∧ resultsPanelOpen (searchLocations_resume o st) = isExpanded st.
Proof.
  intros Hna. unfold resultsPanelOpen, searchLocations_resume.
  destruct o as [[|r rs]|name]; simpl in *.
  - split; [by right|]. by rewrite andb_true_r.
  - split; [by left|]. by rewrite andb_true_r.
  - apply bool_decide_eq_false in Hna.
    rewrite bool_decide_eq_true_2 by done. simpl.
    split; [by right|]. by rewrite andb_true_r.
Qed.

Lemma completed_lookup_fills_panel_witness :
  resultsPanelOpen
    (searchLocations_resume (Throws "TypeError")
       (handleInputChange "paris" (initialState photon))) = true.
Proof.
  apply (completed_lookup_fills_panel (Throws "TypeError")
           (handleInputChange "paris" (initialState photon)) eq_refl).
Defined.

(** X7: clearing the box does not withdraw a lookup in flight: when it
    comes back, its matches are put in the suggestion list, under an empty
    query and with no selection. *)
Theorem clear_then_lookup_returns (w : Component) (rid : nat)
    (r : Request) (rs : list Suggestion) :
  unsignalled w → pending w !! rid = Some r → rs ≠ [] →
  ∃ w', run [Clear; Settle rid (Results rs)] w = Some w'
        ∧ query (ui w') = ""
        ∧ selectedName (ui w') = ""
        ∧ selectedPosition (ui w') = None
        ∧ suggestions (ui w') = rs.
Proof.
  intros Hw Hr Hrs. simpl. unfold settle, permitted. simpl.
  rewrite Hr, (Hw rid r Hr). simpl. eexists. split; [done|]. simpl.
  destruct rs as [|s rs]; [done|]. done.
Qed.

Lemma clear_then_lookup_returns_witness :
  ∃ w', run [Clear; Settle 0 (Results [paris])]
          (searchLocations "paris" (initial photon None)) = Some w'
        ∧ query (ui w') = ""
        ∧ suggestions (ui w') = [paris].
Proof.
  destruct (clear_then_lookup_returns
              (searchLocations "paris" (initial photon None)) 0
              {| req_provider := photon; req_query := "paris";
                 req_init := fetchInit photon |} [paris])
    as (w' & Hrun & Hq & _ & _ & Hs).
  - apply searchLocations_unsignalled. intros rid r. simpl.
    by rewrite lookup_empty.
  - vm_compute. reflexivity.
  - discriminate.
  - exists w'. by split_and!.
Defined.

(** X8: choosing another provider looks the debounced text up again, at
    the new provider, and aborts the controller of the lookup before;
    with a debounced text of fewer than 3 characters nothing is sent. *)
Theorem changeProvider_looks_up_again (p : Provider) (w : Component) :
  apiProvider (ui w) ≠ p →
  apiProvider (ui (changeProvider p w)) = p
  ∧ ((3 ≤ String.length (debouncedQuery w))%nat →
     pending (changeProvider p w)
     = <[nextRequest w :=
           {| req_provider := p; req_query := debouncedQuery w;
              req_init := fetchInit p |}]> (pending w)
     ∧ ∀ c, abortControllerRef w = Some c → c ∈ aborted (changeProvider p w))
  ∧ ((String.length (debouncedQuery w) < 3)%nat →
     pending (changeProvider p w) = pending w
     ∧ aborted (changeProvider p w) = aborted w).
Proof.
  intros Hp. unfold changeProvider.
  rewrite bool_decide_eq_false_2 by done. unfold searchLocations. simpl.
  split_and!.
  - by destruct (negb _ || _).
  - intros Hlen. destruct (debouncedQuery w) as [|c q] eqn:Hq;
      [simpl in Hlen; lia|].
    rewrite bool_decide_eq_false_2 by lia. simpl. split; [done|].
    intros c0 ->. set_solver.
  - intros Hlen. rewrite (bool_decide_eq_true_2 _ Hlen), orb_true_r. done.
Qed.

Lemma changeProvider_looks_up_again_witness :
  ∃ w, run [InputChange "paris"; DebounceElapsed] (initial photon None)
       = Some w
       ∧ pending (changeProvider nominatim w) !! 1%nat
         = Some {| req_provider := nominatim; req_query := "paris";
                   req_init := fetchInit nominatim |}
       ∧ 0%nat ∈ aborted (changeProvider nominatim w).
Proof.
  eexists. split; [vm_compute; reflexivity|].
  match goal with |- context [changeProvider nominatim ?w0] =>
    destruct (changeProvider_looks_up_again nominatim w0)
      as (_ & Hlong & _); [discriminate|];
    destruct Hlong as [Hp Ha]; [vm_compute; lia|]
  end.
  split.
  - rewrite Hp. apply lookup_insert_eq.
  - by apply Ha.
Defined.

Lemma substringTo_length (n : nat) (s : string) :
  String.length (JS.substringTo n s) = n `min` String.length s.
Proof.
  revert s. induction n as [|n IH]; intros [|c s]; simpl; try done.
  by rewrite IH.
Qed.

Lemma substringTo_substringFrom (n : nat) (s : string) :
  s = JS.substringTo n s +:+ JS.substringFrom n s.
Proof.
  revert s. induction n as [|n IH]; intros [|c s]; simpl; try done.
  rewrite append_cons. f_equal. apply IH.
Qed.

(** X9: the label of the selection chip never has more than 43 code
    units: a name of up to 40 is shown whole, a longer one as its first 40
    code units followed by three dots. *)
Theorem chipLabel_bounded (st : State) :
  (String.length (chipLabel st) ≤ 43)%nat
  ∧ ((String.length (selectedName st) ≤ 40)%nat →
     chipLabel st = selectedName st)
  ∧ ((40 < String.length (selectedName st))%nat →
     ∃ head rest,
       selectedName st = head +:+ rest
       ∧ String.length head = 40%nat
       ∧ chipLabel st = head +:+ "...").
Proof.
  unfold chipLabel. case_bool_decide as Hlong; split_and!.
  - rewrite string_length_app, substringTo_length.
    change (String.length "...") with 3%nat. lia.
  - lia.
  - intros _. exists (JS.substringTo 40 (selectedName st)),
                     (JS.substringFrom 40 (selectedName st)).
    split_and!; [apply substringTo_substringFrom| |done].
    rewrite substringTo_length. lia.
  - lia.
  - done.
  - lia.
Qed.

Lemma chipLabel_bounded_witness :
  chipLabel
    (setSelectedName
       "Llanfairpwllgwyngyllgogerychwyrndrobwllllantysiliogogogoch, Wales"
       (initialState photon))
  = "Llanfairpwllgwyngyllgogerychwyrndrobwlll...".
Proof.
  destruct (chipLabel_bounded
              (setSelectedName
                 "Llanfairpwllgwyngyllgogerychwyrndrobwllllantysiliogogogoch, Wales"
                 (initialState photon)))
    as (_ & _ & Hlong).
  destruct Hlong as (head & rest & _ & _ & _); [vm_compute; lia|].
  vm_compute. reflexivity.
Defined.

End SearchDebounce.

(** ** More on the dashboard: the form, editing, deleting *)

Section DashboardForm.
Import Firestore Dashboard.

Lemma run_snoc (user : User) (es : list Event) (e : Event) (st : State) :
  run user (es ++ [e]) st = step user e (run user es st).
Proof. unfold run. by rewrite foldl_app. Qed.

Lemma handleFormSubmit_is_Some (now : string) (st : State) :
  is_Some (formLatLng st) → is_Some (handleFormSubmit now st).
Proof.
  intros [[la ln] Hll]. unfold handleFormSubmit. rewrite Hll.
  destruct (editingId st) as [docId|];
    [destruct (editMode st && JS.truthy docId)|]; eauto.
Qed.

Lemma step_open_form (user : User) (e : Event) (st : State) :
  isAddClick e = false →
  (showForm st = true → is_Some (formLatLng st)) →
  showForm (step user e st) = true → is_Some (formLatLng (step user e st)).
Proof. destruct e; simpl; try done; eauto. Qed.

(** X10: the form, opened by a click on the map or by the edit icon, has
    a coordinate as long as it is open, so a submission always builds its
    document and sends a write. *)
Theorem open_form_submits (user : User) (clock : nat → string)
    (es : list Event) (now : string) :
  forallb (λ e, negb (isAddClick e)) es = true →
  showForm (run user es (initialState clock)) = true →
  ∃ w, handleFormSubmit now (run user es (initialState clock)) = Some w.
Proof.
  intros Hes Hopen. apply handleFormSubmit_is_Some. revert Hes Hopen.
  induction es as [|e es IH] using rev_ind; [done|].
  rewrite forallb_app, run_snoc. simpl. rewrite andb_true_r.
  intros [Hes He]%andb_true_iff. apply step_open_form; [|by apply IH].
  by destruct (isAddClick e).
Qed.

Lemma open_form_submits_witness :
  ∃ w, handleFormSubmit "2025-06-01T12:05:00.000Z"
         (run bob [Snapshot twoClients; MapClick (30.27, -97.74)%float;
                   FormChange "site_name" "Initech"]
              (initialState noon)) = Some w.
Proof.
  apply (open_form_submits bob noon
           [Snapshot twoClients; MapClick (30.27, -97.74)%float;
            FormChange "site_name" "Initech"]); reflexivity.
Defined.

(** X11: opening a row for editing and saving it unchanged rewrites the
    record it came from, with the same name, description, salesperson,
    stage and coordinate and the time of the saving; for a row without an
    identifier, as the sample rows are, the same steps create a new record
    with those fields instead. *)
Theorem edit_then_save (marker : Marker) (st : State) (now : string) :
  let saved :=
    {| site_name := site_name (data marker);
       description := description (data marker);
       salesperson := salesperson (data marker);
       stage := stage (data marker);
       lat := lat (data marker); lng := lng (data marker);
       timestamp := now |} in
  (∀ docId, id marker = Some docId → JS.truthy docId = true →
     handleFormSubmit now (handleEdit marker st)
     = Some (UpdateDoc docId saved))
  ∧ (id marker = None →
     handleFormSubmit now (handleEdit marker st) = Some (AddDoc saved)).
Proof.
  split.
  - intros docId Hid Htruthy. unfold handleFormSubmit. simpl.
    by rewrite Hid, Htruthy.
  - intros Hid. unfold handleFormSubmit. simpl. by rewrite Hid.
Qed.

Lemma edit_then_save_witness :
  handleFormSubmit "2025-06-01T12:30:00.000Z"
    (handleEdit {| id := Some "c2"; data := hooli |} (initialState noon))
  = Some (UpdateDoc "c2"
            {| site_name := "Hooli"; description := "Palo Alto";
               salesperson := "bob@seewise.ai"; stage := "In Proposal";
               lat := 37.44; lng := -122.14;
               timestamp := "2025-06-01T12:30:00.000Z" |}).
Proof.
  apply (proj1 (edit_then_save {| id := Some "c2"; data := hooli |}
                  (initialState noon) "2025-06-01T12:30:00.000Z") "c2");
    reflexivity.
Defined.

Lemma step_edit_target (user : User) (e : Event) (st : State)
    (docId : string) :
  keepsEditTarget e = true →
  editMode st = true ∧ editingId st = Some docId ∧ is_Some (formLatLng st) →
  editMode (step user e st) = true
  ∧ editingId (step user e st) = Some docId
  ∧ is_Some (formLatLng (step user e st)).
Proof. destruct e; simpl; try done. intros _ (? & ? & ?). eauto. Qed.

(** X12: once a row that has an identifier was opened for editing, the
    form stays an edit of that record until a save goes through or another
    row is opened: closing the dialog does not end it, and a form opened
    afterwards by a click on the map is sent as an update of that record,
    at the clicked coordinate, not as a new record. *)
Theorem edit_target_outlives_dialog (user : User) (marker : Marker)
    (docId : string) (es : list Event) (st : State) (now : string) :
  id marker = Some docId → JS.truthy docId = true →
  forallb keepsEditTarget es = true →
  ∃ d, handleFormSubmit now (run user (Edit marker :: es) st)
       = Some (UpdateDoc docId d)
       ∧ Some (lat d, lng d) = formLatLng (run user (Edit marker :: es) st).
Proof.
  intros Hid Htruthy Hes.
  assert (editMode (run user (Edit marker :: es) st) = true
          ∧ editingId (run user (Edit marker :: es) st) = Some docId
          ∧ is_Some (formLatLng (run user (Edit marker :: es) st)))
    as (Hm & He & [[la ln] Hll]).
  { revert Hes. induction es as [|e es IH] using rev_ind.
    - intros _. simpl. eauto.
    - rewrite forallb_app. simpl. rewrite andb_true_r.
      intros [Hes He]%andb_true_iff.
      change (Edit marker :: es ++ [e]) with ((Edit marker :: es) ++ [e]).
      rewrite run_snoc. apply step_edit_target; [done|by apply IH]. }
  unfold handleFormSubmit. rewrite Hll, He, Hm, Htruthy. simpl.
  eexists. split; [done|]. done.
Qed.

Lemma edit_target_outlives_dialog_witness :
  ∃ d, handleFormSubmit "2025-06-01T12:30:00.000Z"
         (run bob [Edit {| id := Some "c2"; data := hooli |}; CloseForm;
                   MapClick (30.27, -97.74)%float;
                   FormChange "site_name" "Initech"]
              (initialState noon))
       = Some (UpdateDoc "c2" d)
       ∧ site_name d = "Initech"
       ∧ Some (lat d, lng d) = Some (30.27, -97.74)%float.
Proof.
  destruct (edit_target_outlives_dialog bob
              {| id := Some "c2"; data := hooli |} "c2"
              [CloseForm; MapClick (30.27, -97.74)%float;
               FormChange "site_name" "Initech"]
              (initialState noon) "2025-06-01T12:30:00.000Z"
              eq_refl eq_refl eq_refl) as (d & Hd & Hll).
  exists d. split; [exact Hd|]. split; [|exact Hll].
  vm_compute in Hd. by injection Hd as <-.
Defined.

(** X13: a deletion the user confirmed, of a row that has an identifier,
    asks the store to delete that document; in the snapshot of the
    collection after it, the row is gone and every other row is as it
    was.  A deletion that was not confirmed asks nothing. *)
Theorem handleDelete_then_snapshot (user : User) (marker : Marker)
    (docId : string) (coll : gmap string ClientData) :
  id marker = Some docId → JS.truthy docId = true →
  handleDelete true marker = Some docId
  ∧ handleDelete false marker = None
  ∧ ∀ m, m ∈ snapshotData (runQuery (clientsQuery user)
                             (deleteDoc docId coll))
         ↔ m ∈ snapshotData (runQuery (clientsQuery user) coll)
           ∧ id m ≠ Some docId.
Proof.
  intros Hid Htruthy. unfold handleDelete. rewrite Hid, Htruthy.
  split_and!; try done.
  intros m. rewrite !elem_of_snapshot. unfold deleteDoc. split.
  - intros (i & Hi & [Hne Hlook]%lookup_delete_Some & Hvis).
    split; [eauto|congruence].
  - intros [(i & Hi & Hlook & Hvis) Hne]. exists i. split_and!; try done.
    apply lookup_delete_Some. split; [congruence|done].
Qed.

Lemma handleDelete_then_snapshot_witness :
  handleDelete true {| id := Some "c1"; data := initech |} = Some "c1"
  ∧ ({| id := Some "c1"; data := initech |}
       ∉ snapshotData (runQuery (clientsQuery bob)
                         (deleteDoc "c1" twoClients)))
  ∧ {| id := Some "c2"; data := hooli |}
      ∈ snapshotData (runQuery (clientsQuery bob)
                        (deleteDoc "c1" twoClients)).
Proof.
  destruct (handleDelete_then_snapshot bob
              {| id := Some "c1"; data := initech |} "c1" twoClients
              eq_refl eq_refl) as (Hdel & _ & Hsnap).
  split; [exact Hdel|]. split.
  - intros Hin. apply Hsnap in Hin as [_ Hne]. by apply Hne.
  - apply Hsnap. split; [|done].
    apply elem_of_snapshot. exists "c2". split_and!; try done.
    by right.
Defined.

End DashboardForm.

(** ** More on the record feed and the sidebar *)

Section DashboardFeed.
Import Firestore Dashboard SidebarSpec.

(** X14: on one state of the collection, a record that a user who is not
    the administrator sees is seen by the administrator too, and by no
    other user who is not the administrator. *)
Theorem snapshots_of_users (u1 u2 admin : User)
    (coll : gmap string ClientData) (m : Marker) :
  isAdmin u1 = false → isAdmin u2 = false → email u1 ≠ email u2 →
  isAdmin admin = true →
  m ∈ snapshotData (runQuery (clientsQuery u1) coll) →
  m ∈ snapshotData (runQuery (clientsQuery admin) coll)
  ∧ m ∉ snapshotData (runQuery (clientsQuery u2) coll).
Proof.
  intros H1 H2 Hne Ha. rewrite !elem_of_snapshot, H1, H2, Ha.
  intros (i & Hi & Hlook & [?|Hs]); [done|]. split.
  - exists i. auto.
  - intros (j & _ & _ & [?|Hs2]); [done|]. congruence.
Qed.

Lemma snapshots_of_users_witness :
  {| id := Some "c1"; data := initech |}
    ∈ snapshotData
        (runQuery (clientsQuery {| email := "admin@seewise.ai" |}) twoClients)
  ∧ {| id := Some "c1"; data := initech |}
      ∉ snapshotData
          (runQuery (clientsQuery {| email := "eve@seewise.ai" |}) twoClients).
Proof.
  apply (snapshots_of_users bob {| email := "eve@seewise.ai" |}
           {| email := "admin@seewise.ai" |} twoClients
           {| id := Some "c1"; data := initech |});
    try reflexivity; try discriminate.
  apply elem_of_snapshot. exists "c1". split_and!; try done. by right.
Defined.

Lemma handleFormChange_keeps_owner (name value : string) (st : State) :
  name ≠ "salesperson" →
  form_salesperson (formData (handleFormChange name value st))
  = form_salesperson (formData st).
Proof.
  intros Hname. unfold handleFormChange. simpl.
  repeat case_bool_decide; done.
Qed.

Lemma step_keeps_draft (user : User) (e : Event) (st : State) :
  keepsDraft e = true →
  formLatLng (step user e st) = formLatLng st
  ∧ form_salesperson (formData (step user e st))
    = form_salesperson (formData st)
  ∧ editMode (step user e st) = editMode st.
Proof.
  destruct e; try done.
  change (step user (FormChange name value) st)
    with (handleFormChange name value st).
  intros Hname%bool_decide_eq_true. split_and!; [done| |done].
  by apply handleFormChange_keeps_owner.
Qed.

(** X16: while the edit flag is down, a record entered after a click on
    the map, with the salesperson field left as the form filled it in, is
    created at the clicked coordinate under the user's own email, and the
    user's snapshot of the collection after the write has it, under the
    identifier the store gave. *)
Theorem map_click_record_visible (user : User) (latlng : float * float)
    (es : list Event) (st : State) (now newId : string)
    (coll : gmap string ClientData) :
  editMode st = false → forallb keepsDraft es = true →
  coll !! newId = None →
  ∃ d, handleFormSubmit now (run user (MapClick latlng :: es) st)
       = Some (AddDoc d)
       ∧ salesperson d = email user
       ∧ (lat d, lng d) = latlng
       ∧ timestamp d = now
       ∧ perform newId (AddDoc d) coll = Some (<[newId := d]> coll)
       ∧ {| id := Some newId; data := d |}
           ∈ snapshotData (runQuery (clientsQuery user) (<[newId := d]> coll)).
Proof.
  intros Hmode Hes Hfresh.
  assert (formLatLng (run user (MapClick latlng :: es) st) = Some latlng
          ∧ form_salesperson (formData (run user (MapClick latlng :: es) st))
            = email user
          ∧ editMode (run user (MapClick latlng :: es) st) = false)
    as (Hll & Hown & Hm).
  { revert Hes. induction es as [|e es IH] using rev_ind; [done|].
    rewrite forallb_app. cbn [forallb]. rewrite andb_true_r.
    intros [Hes He]%andb_true_iff.
    change (MapClick latlng :: es ++ [e])%list
      with ((MapClick latlng :: es) ++ [e])%list.
    rewrite run_snoc.
    destruct (step_keeps_draft user e
                (run user (MapClick latlng :: es) st) He)
      as (-> & -> & ->). by apply IH. }
  destruct latlng as [la ln].
  unfold handleFormSubmit. rewrite Hll, Hm, Hown. simpl.
  eexists. split; [by destruct (editingId _)|]. simpl.
  split_and!; try done.
  - unfold addDoc. by rewrite Hfresh.
  - apply elem_of_snapshot. exists newId. simpl.
    rewrite lookup_insert_eq. split_and!; try done. by right.
Qed.

Lemma map_click_record_visible_witness :
  ∃ d, handleFormSubmit "2025-06-01T12:05:00.000Z"
         (run bob [MapClick (30.27, -97.74)%float;
                   FormChange "site_name" "Initech";
                   FormChange "stage" "POC Stage"] (initialState noon))
       = Some (AddDoc d)
       ∧ salesperson d = "bob@seewise.ai"
       ∧ {| id := Some "c9"; data := d |}
           ∈ snapshotData
               (runQuery (clientsQuery bob) (<["c9" := d]> twoClients)).
Proof.
  destruct (map_click_record_visible bob (30.27, -97.74)%float
              [FormChange "site_name" "Initech";
               FormChange "stage" "POC Stage"]
              (initialState noon) "2025-06-01T12:05:00.000Z" "c9"
              twoClients eq_refl eq_refl eq_refl)
    as (d & Hd & Hs & _ & _ & _ & Hin).
  exists d. by split_and!.
Defined.

Lemma includes_empty (s : string) : JS.includes s "" = true.
Proof. by destruct s. Qed.

(** X17: with an empty search text the sidebar shows every row, in the
    order of the list. *)
Theorem filteredMarkers_empty_search (markers : list Marker) :
  filteredMarkers markers "" = markers.
Proof.
  unfold filteredMarkers. induction markers as [|m ms IH]; [done|].
  rewrite filter_cons_True; [by rewrite IH|].
  simpl. by rewrite includes_empty.
Qed.

Lemma string_app_assoc (a b c : string) :
  (a +:+ b) +:+ c = a +:+ (b +:+ c).
Proof.
  induction a as [|x a IH]; [done|]. rewrite !append_cons. by rewrite IH.
Qed.

Lemma includes_narrow (text a s b : string) :
  JS.includes text (a +:+ s +:+ b) = true → JS.includes text s = true.
Proof.
  rewrite !includes_spec. intros (pre & post & ->).
  exists (pre +:+ a), (b +:+ post). by rewrite !string_app_assoc.
Qed.

(** X18: on records and search texts in the Latin-1 range (the texts of
    this development), a longer search text only narrows the sidebar: when
    the text searched before occurs in the new one, every row shown now
    was shown before, in the same order. *)
Theorem filteredMarkers_narrows (markers : list Marker) (a s b : string) :
  filteredMarkers markers (a +:+ s +:+ b)
    `sublist_of` filteredMarkers markers s
  ∧ ∀ name stage : string,
      Unicode.rowShown (Unicode.ofString name) (Unicode.ofString stage)
                       (Unicode.ofString (a +:+ s +:+ b)) = true →
      Unicode.rowShown (Unicode.ofString name) (Unicode.ofString stage)
                       (Unicode.ofString s) = true.
Proof.
  assert (∀ name stage : string,
            JS.includes (JS.toLowerCase name)
                        (JS.toLowerCase (a +:+ s +:+ b))
            || JS.includes (JS.toLowerCase stage)
                           (JS.toLowerCase (a +:+ s +:+ b)) = true →
            JS.includes (JS.toLowerCase name) (JS.toLowerCase s)
            || JS.includes (JS.toLowerCase stage) (JS.toLowerCase s) = true)
    as Hnarrow.
  { intros name stage Hm. rewrite !toLowerCase_app in Hm.
    apply orb_true_iff in Hm as [Hm|Hm]; apply orb_true_iff;
      [left|right]; by eapply includes_narrow. }
  split; [|intros name stage; rewrite !rowShown_ofString; apply Hnarrow].
  unfold filteredMarkers.
  set (P' := λ m : Marker,
         JS.includes (JS.toLowerCase (site_name (data m)))
                     (JS.toLowerCase (a +:+ s +:+ b))
         || JS.includes (JS.toLowerCase (stage (data m)))
                        (JS.toLowerCase (a +:+ s +:+ b)) = true).
  set (P := λ m : Marker,
         JS.includes (JS.toLowerCase (site_name (data m)))
                     (JS.toLowerCase s)
         || JS.includes (JS.toLowerCase (stage (data m)))
                        (JS.toLowerCase s) = true).
  assert (filter P' markers = filter P' (filter P markers)) as ->.
  { rewrite list_filter_filter. apply list_filter_iff.
    intros m. split; [|by intros [? _]]. intros Hm. split; [done|].
    by apply Hnarrow. }
  apply sublist_filter.
Qed.

(** X19: on records and search texts in the Latin-1 range (the texts of
    this development), the sidebar does not tell the case of the search
    text: two texts that are equal up to case show the same rows. *)
Theorem filteredMarkers_search_case (markers : list Marker)
    (s t : string) :
  eq_ignoring_case s t →
  filteredMarkers markers s = filteredMarkers markers t
  ∧ ∀ name stage : string,
      Unicode.rowShown (Unicode.ofString name) (Unicode.ofString stage)
                       (Unicode.ofString s)
      = Unicode.rowShown (Unicode.ofString name) (Unicode.ofString stage)
                         (Unicode.ofString t).
Proof.
  intros Heq%toLowerCase_eq_iff. split.
  - unfold filteredMarkers. by rewrite Heq.
  - intros name stage. by rewrite !rowShown_ofString, Heq.
Qed.

Lemma filteredMarkers_search_case_witness :
  filteredMarkers (sampleMarkers noon) "GloB"
  = filteredMarkers (sampleMarkers noon) "glOb".
Proof.
  apply filteredMarkers_search_case, toLowerCase_eq_iff.
  vm_compute. reflexivity.
Defined.

Lemma findIndexFrom_spec {A : Type} (p : A → bool) (l : list A) (i : Z) :
  (JS.findIndexFrom i p l = (-1)%Z ∧ Forall (λ x, p x = false) l)
  ∨ ∃ (k : nat) (x : A),
      JS.findIndexFrom i p l = (i + Z.of_nat k)%Z
      ∧ l !! k = Some x ∧ p x = true
      ∧ ∀ (j : nat) (y : A), (j < k)%nat → l !! j = Some y → p y = false.
Proof.
  revert i. induction l as [|x l IH]; intros i; simpl.
  - left. by split.
  - destruct (p x) eqn:Hx.
    + right. exists 0%nat, x. split_and!; [lia|done..|lia].
    + destruct (IH (i + 1)%Z) as [[-> Hall]|(k & y & -> & Hk & Hy & Hmin)].
      * left. split; [done|]. by constructor.
      * right. exists (S k), y. split_and!; [lia|done..|].
        intros [|j] z Hj; simpl; [by intros [= <-]|].
        apply Hmin. lia.
Qed.

(** X20: for a row of the list whose coordinates are numbers equal to
    themselves, [handleSidebarSelect] finds an index inside the list: the
    first row with that row's name and coordinates.  For a row that
    matches none, it finds [-1]. *)
Theorem handleSidebarSelect_index (markers : list Marker)
    (marker : Marker) :
  (marker ∈ markers → sameRow marker marker = true →
   ∃ (k : nat) (m : Marker),
     handleSidebarSelect markers marker = Z.of_nat k
     ∧ markers !! k = Some m
     ∧ sameRow marker m = true
     ∧ ∀ (j : nat) (y : Marker),
         (j < k)%nat → markers !! j = Some y → sameRow marker y = false)
  ∧ (Forall (λ m, sameRow marker m = false) markers →
     handleSidebarSelect markers marker = (-1)%Z).
Proof.
  unfold handleSidebarSelect, JS.findIndex.
  destruct (findIndexFrom_spec (sameRow marker) markers 0)
    as [[Hidx Hall]|(k & m & Hidx & Hk & Hm & Hmin)]; split.
  - intros Hin Hself. rewrite Forall_forall in Hall.
    rewrite (Hall _ Hin) in Hself. done.
  - done.
  - intros _ _. exists k, m. split_and!; [lia|done..].
  - intros Hall. rewrite Forall_forall in Hall.
    rewrite (Hall m) in Hm; [done|]. by eapply list_elem_of_lookup_2.
Qed.

Lemma handleSidebarSelect_index_witness :
  ∃ (k : nat) (m : Marker),
    handleSidebarSelect
      (snapshotData (runQuery (clientsQuery bob) twoClients))
      {| id := Some "c1"; data := initech |} = Z.of_nat k
    ∧ snapshotData (runQuery (clientsQuery bob) twoClients) !! k = Some m
    ∧ sameRow {| id := Some "c1"; data := initech |} m = true.
Proof.
  destruct (proj1 (handleSidebarSelect_index
                     (snapshotData (runQuery (clientsQuery bob) twoClients))
                     {| id := Some "c1"; data := initech |}))
    as (k & m & Hk & Hm & Hsame & _).
  - apply elem_of_snapshot. exists "c1". split_and!; try done. by right.
  - vm_compute. reflexivity.
  - exists k, m. by split_and!.
Defined.

End DashboardFeed.

(** ** More on the sign-up form *)

Section LoginMore.
Import Login.

(** X21: the sign-up form sends the account-creation request exactly when
    the email ends with the allowed domain, the password equals its
    confirmation and has 6 characters or more; the request carries the
    email and the password as typed, and the loading flag goes up. *)
Theorem handleRegister_sends_iff (st : State) :
  ((∃ e p, CreateUserWithEmailAndPassword e p ∈ (handleRegister st).2)
   ↔ (∃ pre, email st = pre +:+ "@seewise.ai")
     ∧ password st = confirmPassword st
     ∧ (6 ≤ String.length (password st))%nat)
  ∧ ((∃ e p, CreateUserWithEmailAndPassword e p ∈ (handleRegister st).2) →
     handleRegister st
     = (setLoading true st,
        [CreateUserWithEmailAndPassword (email st) (password st)])).
Proof.
  unfold handleRegister. rewrite <- endsWith_spec.
  destruct (JS.endsWith (email st) "@seewise.ai"); simpl;
    [case_bool_decide as Hpw; [|case_bool_decide as Hlen]|]; simpl.
  - split; [split|]; [intros (e & p & Hin)|by intros (_ & ? & _)
                     |intros (e & p & Hin)];
      by apply list_elem_of_singleton in Hin.
  - split; [split|]; [intros (e & p & Hin)|intros (_ & _ & ?); lia
                     |intros (e & p & Hin)];
      by apply list_elem_of_singleton in Hin.
  - split; [split|done].
    + intros _. split_and!; [done|done|lia].
    + intros _. eexists _, _. apply list_elem_of_here.
  - split; [split|]; [intros (e & p & Hin)|by intros (? & _)
                     |intros (e & p & Hin)];
      by apply list_elem_of_singleton in Hin.
Qed.

Lemma handleRegister_sends_iff_witness :
  handleRegister
    {| mode := register; email := "ann@seewise.ai"; password := "s3cret!";
       confirmPassword := "s3cret!"; fullName := " Ann "; loading := false |}
  = ({| mode := register; email := "ann@seewise.ai"; password := "s3cret!";
        confirmPassword := "s3cret!"; fullName := " Ann "; loading := true |},
     [CreateUserWithEmailAndPassword "ann@seewise.ai" "s3cret!"]).
Proof.
  apply (proj2 (handleRegister_sends_iff
    {| mode := register; email := "ann@seewise.ai"; password := "s3cret!";
       confirmPassword := "s3cret!"; fullName := " Ann ";
       loading := false |})).
  eexists _, _. vm_compute. apply list_elem_of_here.
Defined.

Lemma trimStart_spec (s : string) :
  ∃ pre, s = pre +:+ JS.trimStart s ∧ blank pre = true
         ∧ ∀ c, firstChar (JS.trimStart s) = Some c → JS.isSpace c = false.
Proof.
  induction s as [|c s IH]; simpl.
  - by exists "".
  - destruct (JS.isSpace c) eqn:Hc.
    + destruct IH as (pre & Hs & Hpre & Hfirst). exists (String c pre).
      rewrite append_cons. simpl. rewrite Hc, Hpre, <- Hs. done.
    + exists "". split_and!; [done..|]. simpl. by intros ? [= <-].
Qed.

Lemma trimEnd_spec (s : string) :
  ∃ post, s = JS.trimEnd s +:+ post ∧ blank post = true
          ∧ (∀ c, lastChar (JS.trimEnd s) = Some c → JS.isSpace c = false)
          ∧ (JS.trimEnd s ≠ "" → firstChar (JS.trimEnd s) = firstChar s).
Proof.
  induction s as [|c s IH]; simpl.
  - by exists "".
  - destruct IH as (post & Hs & Hpost & Hlast & _).
    destruct (JS.trimEnd s) as [|d t] eqn:Ht.
    + destruct (JS.isSpace c) eqn:Hc.
      * exists (String c s). split_and!; [done| |done..].
        simpl. rewrite Hc. simpl. by rewrite Hs.
      * exists s. split_and!; [done| |by intros ? [= <-]|done].
        by rewrite Hs.
    + exists post. split_and!; [|done|exact Hlast|done].
      rewrite append_cons. by rewrite <- Hs.
Qed.

Lemma blank_app (s t : string) :
  blank (s +:+ t) = blank s && blank t.
Proof.
  induction s as [|c s IH]; [done|].
  rewrite append_cons. simpl. by rewrite IH, andb_assoc.
Qed.

Lemma trimEnd_blank (s : string) : blank s = true → JS.trimEnd s = "".
Proof.
  induction s as [|c s IH]; simpl; [done|].
  intros [Hc Hs]%andb_true_iff. by rewrite (IH Hs), Hc.
Qed.

(** X22: after the account was created, the display name that is sent is
    the full name without the white space around it: it is not empty,
    neither starts nor ends with white space, and the full name is it
    between two blank stretches.  For a blank full name no display name is
    sent, and the success dialog and [onLogin] follow at once. *)
Theorem handleRegister_created_display_name (st : State) :
  (∀ name, UpdateProfile name ∈ (handleRegister_created st).2 →
     name ≠ ""
     ∧ (∃ pre post, fullName st = pre +:+ name +:+ post
                    ∧ blank pre = true ∧ blank post = true)
     ∧ (∀ c, firstChar name = Some c → JS.isSpace c = false)
     ∧ (∀ c, lastChar name = Some c → JS.isSpace c = false))
  ∧ (blank (fullName st) = true →
     handleRegister_created st
     = (setLoading false st,
        [ShowAlert "Account created successfully!"; OnLogin])).
Proof.
  unfold handleRegister_created, JS.trim.
  destruct (trimStart_spec (fullName st)) as (pre & Hs & Hpre & Hfirst).
  destruct (trimEnd_spec (JS.trimStart (fullName st)))
    as (post & He & Hpost & Hlast & Hkeep).
  split.
  - destruct (JS.trimEnd (JS.trimStart (fullName st))) as [|d t] eqn:Ht;
      simpl.
    + intros name Hin. apply elem_of_cons in Hin as [[=]|Hin].
      by apply list_elem_of_singleton in Hin.
    + intros name [= ->]%list_elem_of_singleton. split_and!.
      * done.
      * exists pre, post. split_and!; [|done..]. by rewrite <- He.
      * intros c Hc. apply Hfirst. by rewrite <- Hkeep.
      * exact Hlast.
  - intros Hblank. rewrite Hs, blank_app in Hblank.
    apply andb_true_iff in Hblank as [_ Hblank].
    by rewrite (trimEnd_blank _ Hblank).
Qed.

Lemma handleRegister_created_display_name_witness :
  (handleRegister_created
     {| mode := register; email := "ann@seewise.ai"; password := "s3cret!";
        confirmPassword := "s3cret!"; fullName := "  Ann Lee ";
        loading := true |}).2
  = [UpdateProfile "Ann Lee"]
  ∧ "Ann Lee" ≠ "".
Proof.
  split; [vm_compute; reflexivity|].
  apply (proj1 (handleRegister_created_display_name
    {| mode := register; email := "ann@seewise.ai"; password := "s3cret!";
       confirmPassword := "s3cret!"; fullName := "  Ann Lee ";
       loading := true |}) "Ann Lee").
  vm_compute. apply list_elem_of_here.
Defined.

End LoginMore.

(** ** The shell: which screen is shown *)

Section ShellProperties.
Import Dashboard AppShell.

Lemma shell_run_snoc (es : list Event) (e : Event) (st : State) :
  run (es ++ [e]) st = step e (run es st).
Proof. unfold run. by rewrite foldl_app. Qed.

Lemma shell_loading (es : list Event) :
  loading (run es initialState)
  = negb (existsb isAuthStateChanged es).
Proof.
  induction es as [|e es IH] using rev_ind; [done|].
  rewrite shell_run_snoc, existsb_app. simpl. rewrite orb_false_r.
  destruct e; simpl; [by rewrite orb_true_r|by rewrite orb_false_r].
Qed.

(** X23: the loading screen is shown until the identity provider reports
    for the first time, and never after; from then on the dashboard is
    shown for the user the last report or sign-in carried, and the login
    page when it carried none. *)
Theorem shell_screen (es : list Event) (e : Event) :
  (existsb isAuthStateChanged (es ++ [e]) = false →
   render (run (es ++ [e]) initialState) = MapLoading)
  ∧ (existsb isAuthStateChanged (es ++ [e]) = true →
     render (run (es ++ [e]) initialState)
     = match carried e with
       | Some u => SimpleMapWithSearch u
       | None => LoginPage
       end).
Proof.
  unfold render. rewrite shell_loading.
  split; intros ->; simpl; [done|].
  rewrite shell_run_snoc. by destruct e.
Qed.

Lemma shell_screen_witness :
  render (run ([AuthStateChanged None; LoggedIn (Some bob)]
               ++ [AuthStateChanged None]) initialState)
  = LoginPage.
Proof.
  apply (proj2 (shell_screen [AuthStateChanged None; LoggedIn (Some bob)]
                  (AuthStateChanged None))).
  reflexivity.
Defined.

End ShellProperties.

(** ** Selecting a suggestion and the debounce *)

Section SelectThenDebounce.
Import Search.

(** X24: selecting a suggestion writes its name into the query, so when
    the debounce timer runs out next, the name (given it has 3 characters
    or more and is not the text already looked up) is looked up in turn;
    when that lookup comes back with matches, they fill the suggestion
    list again, under the collapsed panel and the kept selection. *)
Theorem select_is_looked_up (place : Suggestion) (w : Component)
    (rs : list Suggestion) :
  (3 ≤ String.length (display_name place))%nat →
  display_name place ≠ debouncedQuery w → rs ≠ [] →
  ∃ w1 w2,
    run [Select place; DebounceElapsed] w = Some w1
    ∧ pending w1 !! nextRequest w
      = Some {| req_provider := apiProvider (ui w);
                req_query := display_name place;
                req_init := fetchInit (apiProvider (ui w)) |}
    ∧ settle (nextRequest w) (Results rs) w1 = Some w2
    ∧ suggestions (ui w2) = rs
    ∧ isExpanded (ui w2) = false
    ∧ selectedName (ui w2) = display_name place.
Proof.
  intros Hlen Hnew Hrs. destruct rs as [|r rs]; [done|].
  simpl. unfold debounceElapsed. simpl.
  rewrite bool_decide_eq_false_2 by done.
  unfold searchLocations. simpl.
  destruct (display_name place) as [|c name] eqn:Hname;
    [simpl in Hlen; lia|].
  rewrite bool_decide_eq_false_2 by lia. simpl.
  eexists _, _. split; [done|]. simpl. split; [apply lookup_insert_eq|].
  unfold settle. simpl. rewrite lookup_insert_eq.
  unfold permitted. cbn [req_init]. rewrite fetchInit_no_signal. simpl.
  split; [reflexivity|]. simpl. by split_and!.
Qed.

Lemma select_is_looked_up_witness :
  ∃ w1 w2,
    run [Select paris; DebounceElapsed]
        (withUi (setSuggestions [paris; parma]) (initial photon None))
    = Some w1
    ∧ settle 0 (Results [parma]) w1 = Some w2
    ∧ suggestions (ui w2) = [parma]
    ∧ selectedName (ui w2) = "Paris, France".
Proof.
  destruct (select_is_looked_up paris
              (withUi (setSuggestions [paris; parma]) (initial photon None))
              [parma])
    as (w1 & w2 & Hrun & _ & Hsettle & Hs & _ & Hn);
    [simpl; lia|discriminate..|].
  exists w1, w2. by split_and!.
Defined.

End SelectThenDebounce.
